(** * SerialRAM: a driver for Microchip 47x04 / 47x16 I2C EERAM

    Shallow embedding of [src/SerialRAM.h] and [src/SerialRAM.cpp].

    The driver is a C++ class with three [int8_t] fields and a set of
    methods that talk to the Arduino [Wire] object.  The methods are
    embedded as computations in a state monad over a [Machine]: the
    object ([this]) together with the state of the two-wire transport.
    The transport is an interface (a type class); the driver is written
    once against it and later run against a simulated chip. *)

From Stdlib Require Import ZArith List Bool Lia.
From stdpp Require Import gmap.
Import ListNotations.

Local Open Scope Z_scope.

(** ** Fixed-width integers

    C++ integer conversions, written out on [Z]. *)

Definition to_u8 (z : Z) : Z := z mod 256.
Definition to_u16 (z : Z) : Z := z mod 65536.
(** Conversion to [int8_t]: the value modulo 2^8 in [-128, 127]. *)
Definition to_i8 (z : Z) : Z := (z + 128) mod 256 - 128.

Definition is_u8 (z : Z) : Prop := 0 <= z < 256.
Definition is_u16 (z : Z) : Prop := 0 <= z < 65536.

(** ** [address16b]

    [typedef union { uint16_t a16; uint8_t a8[2]; } address16b;]

    The union is modelled by its object representation: two bytes.
    Storing through [a16] lays the value out least significant byte
    first, as on the little-endian targets of the Arduino core (AVR,
    ARM, ESP); [a8[i]] reads byte [i] of that storage. *)

Record address16b := { bytes : list Z }.

Definition set_a16 (v : Z) : address16b :=
  {| bytes := [to_u16 v mod 256; to_u16 v / 256] |}.

Definition a8 (a : address16b) (i : nat) : Z := nth i (bytes a) 0.

(** ** The two-wire transport

    The subset of the Arduino [TwoWire] interface the driver calls.
    [endTransmission] returns its status byte, [read] the [int] it
    returns ([-1] when nothing is available).  The counts returned by
    [write] and [requestFrom] are dropped, as the driver drops them. *)

Class TwoWire (W : Type) := {
  tw_begin : W -> W;
  tw_beginTransmission : Z -> W -> W;
  tw_write : Z -> W -> W;
  tw_write_buf : list Z -> Z -> W -> W;      (* write(const uint8_t*, size) *)
  tw_endTransmission : W -> Z * W;
  tw_requestFrom : Z -> Z -> W -> W;
  tw_read : W -> Z * W
}.

(** ** The object *)

Record SerialRAM := {
  SRAM_REGISTER : Z;        (* int8_t *)
  CONTROL_REGISTER : Z;     (* int8_t *)
  STORAGE_ARRAY_SIZE : Z    (* int8_t *)
}.

Record Machine (W : Type) := {
  this : SerialRAM;
  wire : W
}.
Arguments this {W} _.
Arguments wire {W} _.

(** ** The state monad of method bodies *)

Definition M (W A : Type) : Type := Machine W -> A * Machine W.

Definition ret {W A} (a : A) : M W A := fun m => (a, m).

Definition bind {W A B} (c : M W A) (k : A -> M W B) : M W B :=
  fun m => let (a, m') := c m in k a m'.

Declare Scope method_scope.
Delimit Scope method_scope with method.
Notation "'let*' x ':=' c 'in' k" :=
  (bind c (fun x => k))
  (at level 10, x name, c at level 100, k at level 200) : method_scope.
Notation "c ';;' k" :=
  (bind c (fun _ => k))
  (at level 100, k at level 200, right associativity) : method_scope.

Section Driver.

Context {W : Type} `{TwoWire W}.

Local Open Scope method_scope.

(** Field reads and writes on [this]. *)

Definition get_this : M W SerialRAM := fun m => (this m, m).

Definition set_SRAM_REGISTER (v : Z) : M W unit := fun m =>
  (tt, {| this := {| SRAM_REGISTER := v;
                     CONTROL_REGISTER := CONTROL_REGISTER (this m);
                     STORAGE_ARRAY_SIZE := STORAGE_ARRAY_SIZE (this m) |};
          wire := wire m |}).

Definition set_CONTROL_REGISTER (v : Z) : M W unit := fun m =>
  (tt, {| this := {| SRAM_REGISTER := SRAM_REGISTER (this m);
                     CONTROL_REGISTER := v;
                     STORAGE_ARRAY_SIZE := STORAGE_ARRAY_SIZE (this m) |};
          wire := wire m |}).

Definition set_STORAGE_ARRAY_SIZE (v : Z) : M W unit := fun m =>
  (tt, {| this := {| SRAM_REGISTER := SRAM_REGISTER (this m);
                     CONTROL_REGISTER := CONTROL_REGISTER (this m);
                     STORAGE_ARRAY_SIZE := v |};
          wire := wire m |}).

(** Calls on the global [Wire] object. *)

Definition on_wire (f : W -> W) : M W unit := fun m =>
  (tt, {| this := this m; wire := f (wire m) |}).

Definition from_wire (f : W -> Z * W) : M W Z := fun m =>
  let (r, w) := f (wire m) in (r, {| this := this m; wire := w |}).

Definition Wire_begin : M W unit := on_wire tw_begin.
Definition Wire_beginTransmission (a : Z) : M W unit :=
  on_wire (tw_beginTransmission a).
Definition Wire_write (b : Z) : M W unit := on_wire (tw_write b).
Definition Wire_write_buf (values : list Z) (size : Z) : M W unit :=
  on_wire (tw_write_buf values size).
Definition Wire_endTransmission : M W Z := from_wire tw_endTransmission.
Definition Wire_requestFrom (a n : Z) : M W unit :=
  on_wire (tw_requestFrom a n).
Definition Wire_read : M W Z := from_wire tw_read.

(** *** [SerialRAM::begin] *)

Definition begin (A0 A1 SIZE : Z) : M W Z :=
  let mask := to_u8 (Z.lor (Z.shiftl A0 1) A1) in
  let mask := to_u8 (Z.shiftl mask 1) in
  set_SRAM_REGISTER (to_i8 (Z.lor 0x50 mask)) ;;
  set_CONTROL_REGISTER (to_i8 (Z.lor 0x18 mask)) ;;
  Wire_begin ;;
  if SIZE =? 16 then
    set_STORAGE_ARRAY_SIZE (to_i8 0xf8) ;; ret 0
  else if SIZE =? 4 then
    set_STORAGE_ARRAY_SIZE (to_i8 0xfe) ;; ret 0
  else
    set_STORAGE_ARRAY_SIZE (to_i8 0xf8) ;; ret 1.

(** *** [SerialRAM::write(address, value)] *)

Definition write (address value : Z) : M W Z :=
  let a := set_a16 address in
  let* self := get_this in
  let arrSize := to_u8 (STORAGE_ARRAY_SIZE self) in
  if negb (Z.land (a8 a 1) arrSize =? 0) then
    ret 5
  else
    Wire_beginTransmission (SRAM_REGISTER self) ;;
    Wire_write (a8 a 1) ;;
    Wire_write (a8 a 0) ;;
    Wire_write value ;;
    Wire_endTransmission.

(** *** [SerialRAM::read(address)] *)

Definition read (address : Z) : M W Z :=
  let a := set_a16 address in
  let* self := get_this in
  let arrSize := to_u8 (STORAGE_ARRAY_SIZE self) in
  if negb (Z.land (a8 a 1) arrSize =? 0) then
    ret 0
  else
    Wire_beginTransmission (SRAM_REGISTER self) ;;
    Wire_write (a8 a 1) ;;
    Wire_write (a8 a 0) ;;
    Wire_endTransmission ;;
    Wire_requestFrom (SRAM_REGISTER self) 1 ;;
    let* r := Wire_read in
    let buffer := to_u8 r in
    Wire_endTransmission ;;
    ret buffer.

(** *** [SerialRAM::readControlRegister] *)

Definition readControlRegister : M W Z :=
  let* self := get_this in
  Wire_beginTransmission (CONTROL_REGISTER self) ;;
  Wire_write 0x00 ;;
  Wire_endTransmission ;;
  Wire_requestFrom (CONTROL_REGISTER self) 1 ;;
  let* r := Wire_read in
  let buffer := to_u8 r in
  Wire_endTransmission ;;
  ret buffer.

(** *** [SerialRAM::setAutoStore], [SerialRAM::getAutoStore] *)

Definition setAutoStore (value : bool) : M W unit :=
  let* buffer := readControlRegister in
  let buffer :=
    to_u8 (if value then Z.lor buffer 0x02 else Z.land buffer 0xfd) in
  let* self := get_this in
  Wire_beginTransmission (CONTROL_REGISTER self) ;;
  Wire_write 0x00 ;;
  Wire_write buffer ;;
  Wire_endTransmission ;;
  ret tt.

Definition getAutoStore : M W bool :=
  let* buffer := readControlRegister in
  ret (negb (Z.land buffer 0x02 =? 0)).

(** *** [SerialRAM::setWriteProtect], [SerialRAM::getWriteProtect] *)

Definition setWriteProtect (prot : Z) : M W Z :=
  let protectArea := prot in
  if negb (Z.land protectArea 0xf8 =? 0) then
    ret 1
  else
    let* buffer := readControlRegister in
    let buffer :=
      to_u8 (Z.lor (Z.land buffer 0xe3) (Z.shiftl protectArea 2)) in
    let* self := get_this in
    Wire_beginTransmission (CONTROL_REGISTER self) ;;
    Wire_write 0x00 ;;
    Wire_write buffer ;;
    Wire_endTransmission ;;
    ret 0.

Definition getWriteProtect : M W Z :=
  let* buffer := readControlRegister in
  ret (to_u8 (Z.shiftr (Z.land buffer 0x1c) 2)).

(** *** [SerialRAM::setEventBit], [SerialRAM::getEventBit] *)

Definition setEventBit (value : bool) : M W unit :=
  let* buffer := readControlRegister in
  let buffer :=
    to_u8 (if value then Z.lor buffer 0x01 else Z.land buffer 0xfe) in
  let* self := get_this in
  Wire_beginTransmission (CONTROL_REGISTER self) ;;
  Wire_write 0x00 ;;
  Wire_write buffer ;;
  Wire_endTransmission ;;
  ret tt.

Definition getEventBit : M W bool :=
  let* buffer := readControlRegister in
  ret (negb (Z.land buffer 0x01 =? 0)).

(** *** [SerialRAM::getMatch]

    Declared in the header as [getMatchStatus]; the body is the one
    of [SerialRAM.cpp]. *)

Definition getMatch : M W bool :=
  let* buffer := readControlRegister in
  ret (Z.land buffer 0x80 =? 0).

(** *** [SerialRAM::store], [SerialRAM::recall] *)

Definition store : M W unit :=
  let* self := get_this in
  Wire_beginTransmission (CONTROL_REGISTER self) ;;
  Wire_write 0x55 ;;
  Wire_write 0x33 ;;
  Wire_endTransmission ;;
  ret tt.

Definition recall : M W unit :=
  let* self := get_this in
  Wire_beginTransmission (CONTROL_REGISTER self) ;;
  Wire_write 0x55 ;;
  Wire_write 0xdd ;;
  Wire_endTransmission ;;
  ret tt.

(** *** [SerialRAM::write(address, values, size)]

    The bounds test reads the [int8_t] field directly, so the
    operand of [&] is the sign-extended field. *)

Definition write_array (address : Z) (values : list Z) (size : Z)
  : M W Z :=
  let a := set_a16 address in
  let* self := get_this in
  if negb (Z.land (a8 a 1) (STORAGE_ARRAY_SIZE self) =? 0) then
    ret 5
  else
    Wire_beginTransmission (SRAM_REGISTER self) ;;
    Wire_write (a8 a 1) ;;
    Wire_write (a8 a 0) ;;
    Wire_write_buf values size ;;
    Wire_endTransmission.

(** *** [SerialRAM::read(address, values, size)]

    [values] is the caller's array; the loop stores into
    [values[0]], ..., [values[size-1]].  The source leaves an array
    shorter than [size] to the caller ("make sure values is big
    enough"); here a store past the end of the list stores nothing.
    The function has return type [uint8_t] but only the bounds failure
    executes a [return]: the result is [Some] of the returned byte, or
    [None] when control reaches the closing brace.  The locals [size1]
    and, in the block [write], [arrSize] are never read and are left
    out. *)

Fixpoint read_array_loop (n : nat) (i : Z) (values : list Z)
  : M W (list Z) :=
  match n with
  | O => ret values
  | S n' =>
      let* r := Wire_read in
      read_array_loop n' (i + 1) (<[Z.to_nat i := to_u8 r]> values)
  end.

Definition read_array (address : Z) (values : list Z) (size : Z)
  : M W (option Z * list Z) :=
  let a := set_a16 address in
  let* self := get_this in
  let arrSize := to_u16 (STORAGE_ARRAY_SIZE self) in
  if negb (Z.land (a8 a 1) arrSize =? 0) then
    ret (Some 5, values)
  else
    Wire_beginTransmission (SRAM_REGISTER self) ;;
    Wire_write (a8 a 1) ;;
    Wire_write (a8 a 0) ;;
    Wire_endTransmission ;;
    Wire_requestFrom (SRAM_REGISTER self) size ;;
    let* values := read_array_loop (Z.to_nat size) 0 values in
    Wire_endTransmission ;;
    ret (None, values).

End Driver.

(** ** Status bytes

    The codes the source documents for [write]: "0:success, 1:data too
    long to fit in transmit buffer, 2:received NACK on transmit of
    address, 3:received NACK on transmit of data, 4:other error,
    5:address out of bounds".  [begin] and [setWriteProtect] return 0
    on success and 1 when they refuse their argument. *)

Definition Ok : Z := 0.
Definition BufferOverflow : Z := 1.
Definition AddressNack : Z := 2.
Definition DataNack : Z := 3.
Definition OtherTransportError : Z := 4.
Definition OutOfBounds : Z := 5.
Definition InvalidArgument : Z := 1.

(** ** Vocabulary of the statements *)

(** The most significant byte of a 16-bit offset. *)
Definition high_byte (address : Z) : Z := Z.shiftr address 8.

(** The capacity mask as the byte the bounds tests use. *)
Definition capacity_mask (h : SerialRAM) : Z := to_u8 (STORAGE_ARRAY_SIZE h).

Definition out_of_bounds (h : SerialRAM) (address : Z) : Prop :=
  Z.land (high_byte address) (capacity_mask h) <> 0.

Definition in_bounds (h : SerialRAM) (address : Z) : Prop :=
  Z.land (high_byte address) (capacity_mask h) = 0.

(** The chip-select bits computed from the two pins. *)
Definition select_bits (A0 A1 : Z) : Z :=
  Z.shiftl (Z.lor (Z.shiftl A0 1) A1) 1.

(** [new] and [old] agree on every bit that is clear in [field]. *)
Definition same_outside (field old new : Z) : Prop :=
  forall i, Z.testbit field i = false -> Z.testbit new i = Z.testbit old i.

(** A method call on an initialised object; [begin] is not one of them. *)
Inductive Invocation :=
| call_write (address value : Z)
| call_read (address : Z)
| call_setAutoStore (value : bool)
| call_getAutoStore
| call_store
| call_recall
| call_setWriteProtect (prot : Z)
| call_getWriteProtect
| call_setEventBit (value : bool)
| call_getEventBit
| call_getMatch
| call_write_array (address : Z) (values : list Z) (size : Z)
| call_read_array (address : Z) (values : list Z) (size : Z).

Section Invoke.

Context {W : Type} `{TwoWire W}.

Local Open Scope method_scope.

Definition invoke (c : Invocation) : M W unit :=
  match c with
  | call_write address value => write address value ;; ret tt
  | call_read address => read address ;; ret tt
  | call_setAutoStore value => setAutoStore value
  | call_getAutoStore => getAutoStore ;; ret tt
  | call_store => store
  | call_recall => recall
  | call_setWriteProtect prot => setWriteProtect prot ;; ret tt
  | call_getWriteProtect => getWriteProtect ;; ret tt
  | call_setEventBit value => setEventBit value
  | call_getEventBit => getEventBit ;; ret tt
  | call_getMatch => getMatch ;; ret tt
  | call_write_array address values size =>
      write_array address values size ;; ret tt
  | call_read_array address values size =>
      read_array address values size ;; ret tt
  end.

Definition invoke_all (cs : list Invocation) (m : Machine W) : Machine W :=
  fold_left (fun m c => snd (invoke c m)) cs m.

End Invoke.

(** ** A transport that records the calls made on it

    Wraps any transport and appends every call, with its arguments, to
    [calls]; the call itself is passed on unchanged. *)

Module Recorder.

Inductive Call :=
| begin_call
| beginTransmission_call (address : Z)
| write_call (b : Z)
| write_buf_call (values : list Z) (size : Z)
| endTransmission_call
| requestFrom_call (address quantity : Z)
| read_call.

Record Wire (W : Type) := { inner : W; calls : list Call }.
Arguments inner {W} _.
Arguments calls {W} _.

Definition note {W} (c : Call) (f : W -> W) (w : Wire W) : Wire W :=
  {| inner := f (inner w); calls := calls w ++ [c] |}.

Definition note_result {W} (c : Call) (f : W -> Z * W) (w : Wire W)
  : Z * Wire W :=
  let (r, w') := f (inner w) in
  (r, {| inner := w'; calls := calls w ++ [c] |}).

#[global] Instance wire_TwoWire {W} `{TwoWire W} : TwoWire (Wire W) := {
  tw_begin := note begin_call tw_begin;
  tw_beginTransmission a :=
    note (beginTransmission_call a) (tw_beginTransmission a);
  tw_write b := note (write_call b) (tw_write b);
  tw_write_buf values size :=
    note (write_buf_call values size) (tw_write_buf values size);
  tw_endTransmission := note_result endTransmission_call tw_endTransmission;
  tw_requestFrom a n := note (requestFrom_call a n) (tw_requestFrom a n);
  tw_read := note_result read_call tw_read
}.

Definition start {W} (w : W) : Wire W := {| inner := w; calls := [] |}.

(** The calls of [readControlRegister] on control address [c]. *)
Definition fetch_calls (c : Z) : list Call :=
  [beginTransmission_call c; write_call 0x00; endTransmission_call;
   requestFrom_call c 1; read_call; endTransmission_call].

(** The calls that send [payload] to address [c] in one transaction. *)
Definition send_calls (c : Z) (payload : list Z) : list Call :=
  beginTransmission_call c :: map write_call payload
    ++ [endTransmission_call].

End Recorder.

(** ** A simulated chip behind a simulated [Wire]

    Modelled from the spec: the Bus Transport collaborator of section 6
    ([begin], [start_transmission], [write_byte] / [write_bytes],
    [end_transmission], [request_bytes], [read_byte]) is the Arduino
    [Wire] library and the chip behind it; neither is part of the
    repository.  [Sim] is the "faithful in-memory simulation of the
    device" the round-trip properties speak of: one 47x04 / 47x16 chip
    on the bus, with its SRAM array, its EEPROM shadow, its STATUS
    register (bit 7 array-modified, read-only; bits 4..2 block protect;
    bit 1 auto-store enable; bit 0 event) and its address pointer. *)

Module Sim.

Record Chip := {
  pins : Z;              (* chip-select bits as wired: (A0<<1|A1)<<1 *)
  cells : Z;             (* bytes in the array: 2048 or 512 *)
  sram : gmap Z Z;
  eeprom : gmap Z Z;
  status : Z;
  pointer : Z
}.

Definition peek (mem : gmap Z Z) (p : Z) : Z := default 0 (mem !! p).

Definition with_pointer (p : Z) (c : Chip) : Chip :=
  {| pins := pins c; cells := cells c; sram := sram c;
     eeprom := eeprom c; status := status c; pointer := p |}.

Definition with_status (s : Z) (c : Chip) : Chip :=
  {| pins := pins c; cells := cells c; sram := sram c;
     eeprom := eeprom c; status := s; pointer := pointer c |}.

(** One data byte clocked into the array: stored at the pointer, the
    pointer advances and wraps, the array-modified bit is raised. *)
Definition poke (b : Z) (c : Chip) : Chip :=
  {| pins := pins c; cells := cells c;
     sram := <[pointer c := b]> (sram c);
     eeprom := eeprom c;
     status := Z.lor (status c) 0x80;
     pointer := (pointer c + 1) mod cells c |}.

(** A write transaction addressed to the SRAM array: two address
    bytes, then data. *)
Definition data_write (payload : list Z) (c : Chip) : Chip :=
  match payload with
  | hi :: lo :: data =>
      fold_left (fun c b => poke b c) data
                (with_pointer ((hi * 256 + lo) mod cells c) c)
  | _ => c
  end.

(** A read transaction on the SRAM array: [n] bytes from the
    pointer on. *)
Fixpoint data_read (n : nat) (c : Chip) : list Z * Chip :=
  match n with
  | O => ([], c)
  | S n' =>
      let b := peek (sram c) (pointer c) in
      let (bs, c') :=
        data_read n' (with_pointer ((pointer c + 1) mod cells c) c) in
      (b :: bs, c')
  end.

(** A write transaction addressed to the control registers: register
    0x00 is STATUS, of which bits 4..0 are writable; register 0x55 is
    COMMAND, 0x33 storing the array and 0xdd recalling it. *)
Definition control_write (payload : list Z) (c : Chip) : Chip :=
  match payload with
  | [0x00; b] =>
      with_status (Z.lor (Z.land (status c) 0x80) (Z.land b 0x1f)) c
  | [0x55; 0x33] =>
      {| pins := pins c; cells := cells c; sram := sram c;
         eeprom := sram c;
         status := Z.land (status c) 0x7f; pointer := pointer c |}
  | [0x55; 0xdd] =>
      {| pins := pins c; cells := cells c; sram := eeprom c;
         eeprom := eeprom c;
         status := Z.land (status c) 0x7f; pointer := pointer c |}
  | _ => c
  end.

Record Wire := {
  chip : Chip;
  txAddress : Z;
  txBuffer : list Z;
  rxBuffer : list Z
}.

Definition begin (w : Wire) : Wire := w.

Definition beginTransmission (a : Z) (w : Wire) : Wire :=
  {| chip := chip w; txAddress := to_u8 a; txBuffer := [];
     rxBuffer := rxBuffer w |}.

Definition write (b : Z) (w : Wire) : Wire :=
  {| chip := chip w; txAddress := txAddress w;
     txBuffer := txBuffer w ++ [to_u8 b]; rxBuffer := rxBuffer w |}.

Definition write_buf (values : list Z) (size : Z) (w : Wire) : Wire :=
  {| chip := chip w; txAddress := txAddress w;
     txBuffer := txBuffer w ++ map to_u8 (firstn (Z.to_nat size) values);
     rxBuffer := rxBuffer w |}.

(** The buffered bytes go out to [txAddress]; a chip that answers
    the address takes them and the status is 0, otherwise the address
    is not acknowledged and the status is 2. *)
Definition endTransmission (w : Wire) : Z * Wire :=
  let c := chip w in
  if txAddress w =? Z.lor 0x50 (pins c) then
    (0, {| chip := data_write (txBuffer w) c; txAddress := txAddress w;
           txBuffer := []; rxBuffer := rxBuffer w |})
  else if txAddress w =? Z.lor 0x18 (pins c) then
    (0, {| chip := control_write (txBuffer w) c; txAddress := txAddress w;
           txBuffer := []; rxBuffer := rxBuffer w |})
  else
    (2, {| chip := c; txAddress := txAddress w;
           txBuffer := []; rxBuffer := rxBuffer w |}).

Definition requestFrom (a n : Z) (w : Wire) : Wire :=
  let c := chip w in
  if to_u8 a =? Z.lor 0x50 (pins c) then
    let (bs, c') := data_read (Z.to_nat n) c in
    {| chip := c'; txAddress := txAddress w; txBuffer := txBuffer w;
       rxBuffer := bs |}
  else if to_u8 a =? Z.lor 0x18 (pins c) then
    {| chip := c; txAddress := txAddress w; txBuffer := txBuffer w;
       rxBuffer := repeat (status c) (Z.to_nat n) |}
  else
    {| chip := c; txAddress := txAddress w; txBuffer := txBuffer w;
       rxBuffer := [] |}.

Definition read (w : Wire) : Z * Wire :=
  match rxBuffer w with
  | b :: rest =>
      (b, {| chip := chip w; txAddress := txAddress w;
             txBuffer := txBuffer w; rxBuffer := rest |})
  | [] => (-1, w)
  end.

#[global] Instance wire_TwoWire : TwoWire Wire := {
  tw_begin := begin;
  tw_beginTransmission := beginTransmission;
  tw_write := write;
  tw_write_buf := write_buf;
  tw_endTransmission := endTransmission;
  tw_requestFrom := requestFrom;
  tw_read := read
}.

(** A blank chip of [n] bytes wired with the given select bits, on an
    idle bus. *)
Definition blank (sel n : Z) : Wire :=
  {| chip := {| pins := sel; cells := n; sram := ∅; eeprom := ∅;
                status := 0; pointer := 0 |};
     txAddress := 0; txBuffer := []; rxBuffer := [] |}.

(** The object addresses the chip on the bus: the chip is wired with
    one of the four select codes and the object holds the two bus
    addresses derived from it. *)
Definition attached (m : Machine Wire) : Prop :=
  let sel := pins (chip (wire m)) in
  In sel [0; 2; 4; 6] /\
  SRAM_REGISTER (this m) = Z.lor 0x50 sel /\
  CONTROL_REGISTER (this m) = Z.lor 0x18 sel.

End Sim.

(** ** A transport that times out

    Every transmission ends with status 5 and nothing is ever received.
    The driver's documentation lists the transport's codes as 0..4, but
    [write] returns whatever byte [endTransmission] hands it. *)

Module Timeout.

Inductive Wire := idle.

#[global] Instance wire_TwoWire : TwoWire Wire := {
  tw_begin w := w;
  tw_beginTransmission _ w := w;
  tw_write _ w := w;
  tw_write_buf _ _ w := w;
  tw_endTransmission w := (5, w);
  tw_requestFrom _ _ w := w;
  tw_read w := (-1, w)
}.

End Timeout.

(** An object whose fields have not been assigned yet. *)
Definition fresh : SerialRAM :=
  {| SRAM_REGISTER := 0; CONTROL_REGISTER := 0; STORAGE_ARRAY_SIZE := 0 |}.

Definition boot {W} (w : W) : Machine W := {| this := fresh; wire := w |}.

(** A 47x16 on select code 0, initialised with the defaults of
    [begin]. *)
Definition bench : Machine Sim.Wire :=
  snd (begin 0 0 16 (boot (Sim.blank 0 2048))).

(** The same behind a recording transport. *)
Definition recorded_bench : Machine (Recorder.Wire Sim.Wire) :=
  snd (begin 0 0 16 (boot (Recorder.start (Sim.blank 0 2048)))).


(** ** Vocabulary of the proofs *)

(** Every byte, for checking a byte-level fact by evaluation. *)
Definition all_u8 : list Z := map Z.of_nat (seq 0 256).

(** The bytes the three setters compute from the byte they fetched. *)
Definition autoStore_byte (value : bool) (old : Z) : Z :=
  to_u8 (if value then Z.lor old 0x02 else Z.land old 0xfd).

Definition eventBit_byte (value : bool) (old : Z) : Z :=
  to_u8 (if value then Z.lor old 0x01 else Z.land old 0xfe).

Definition writeProtect_byte (prot old : Z) : Z :=
  to_u8 (Z.lor (Z.land old 0xe3) (Z.shiftl prot 2)).

Section Transactions.

Context {W : Type} `{TwoWire W}.

(** A computation that never assigns a field of [this]. *)
Definition keeps_this {A} (c : M W A) : Prop :=
  forall m, this (snd (c m)) = this m.

(** One write transaction: [beginTransmission], the payload byte by
    byte, [endTransmission]. *)
Definition wire_send (a : Z) (payload : list Z) (w : W) : Z * W :=
  tw_endTransmission
    (fold_left (fun w b => tw_write b w) payload
               (tw_beginTransmission a w)).

(** One byte read back: [requestFrom] for one byte, [read], and the
    [endTransmission] that follows it in the source. *)
Definition wire_fetch (a : Z) (w : W) : Z * W :=
  let (r, w') := tw_read (tw_requestFrom a 1 w) in
  (to_u8 r, snd (tw_endTransmission w')).

Definition on (m : Machine W) (w : W) : Machine W :=
  {| this := this m; wire := w |}.

(** The three setters: the register is fetched, then one transaction
    sends register number 0 and the new byte. *)
Definition put_back (new : Z) (m : Machine W) : Machine W :=
  on m (snd (wire_send (CONTROL_REGISTER (this m)) [0x00; new] (wire m))).

End Transactions.

(** Unfold the monad and name the results of the transport calls the
    goal is stuck on. *)
Ltac run :=
  unfold bind, ret, get_this, Wire_begin, Wire_beginTransmission,
    Wire_write, Wire_write_buf, Wire_endTransmission, Wire_requestFrom,
    Wire_read, on_wire, from_wire;
  simpl;
  repeat match goal with
         | |- context [let (_, _) := ?e in _] =>
             lazymatch e with
             | context [let (_, _) := _ in _] => fail
             | _ => destruct e; simpl
             end
         end.

(** ** Vocabulary of the further properties *)

(** The first offset the bounds tests refuse after [begin] with the
    given density: 512 bytes for a 47x04, 2048 otherwise. *)
Definition first_refused (SIZE : Z) : Z :=
  if SIZE =? 4 then 0x0200 else 0x0800.

(** The bus addresses named in a list of recorded calls are all one of
    the two addresses held by the object. *)
Definition names_only (h : SerialRAM) (cs : list Recorder.Call) : Prop :=
  Forall (fun c =>
            match c with
            | Recorder.beginTransmission_call a
            | Recorder.requestFrom_call a _ =>
                a = SRAM_REGISTER h \/ a = CONTROL_REGISTER h
            | _ => True
            end) cs.

(** A computation that keeps a property of the machine. *)
Definition preserves {W A} (I : Machine W -> Prop) (c : M W A) : Prop :=
  forall m, I m -> I (snd (c m)).

(** The cells the chip's pointer visits in [k] consecutive accesses
    that start at cell [p] of an array of [n] cells. *)
Fixpoint cells_from (n p : Z) (k : nat) : list Z :=
  match k with
  | O => []
  | S k' => p :: cells_from n ((p + 1) mod n) k'
  end.

(** STATUS after the chip has taken [new] as a write to register 0:
    bit 7 stays, bits 4..0 are those of the byte written. *)
Definition status_written (s new : Z) : Z :=
  Z.lor (Z.land s 0x80) (Z.land (to_u8 new) 0x1f).

(** What the four getters make of a control register byte. *)
Definition autoStore_of (b : Z) : bool := negb (Z.land b 0x02 =? 0).
Definition eventBit_of (b : Z) : bool := negb (Z.land b 0x01 =? 0).
Definition writeProtect_of (b : Z) : Z :=
  to_u8 (Z.shiftr (Z.land b 0x1c) 2).
Definition match_of (b : Z) : bool := Z.land b 0x80 =? 0.

(** * Properties *)

(** ** Bytes *)

Lemma to_u8_range z : is_u8 (to_u8 z).
Proof. unfold is_u8, to_u8. apply Z.mod_pos_bound. lia. Qed.

Lemma to_u8_small z : is_u8 z -> to_u8 z = z.
Proof. unfold is_u8, to_u8. intros Hz. apply Z.mod_small. lia. Qed.

Lemma all_u8_complete b : is_u8 b -> In b all_u8.
Proof.
  intros [Hlo Hhi]. unfold all_u8.
  rewrite <- (Z2Nat.id b) by lia.
  apply in_map, in_seq. lia.
Qed.

Lemma check_u8 (f : Z -> bool) :
  forallb f all_u8 = true -> forall b, is_u8 b -> f b = true.
Proof.
  intros Hall b Hb. rewrite forallb_forall in Hall.
  apply Hall, all_u8_complete, Hb.
Qed.

(** The test [x & k] sees only the low eight bits of [k] when [x] is a
    byte: the sign-extended field and its conversions to [uint8_t] and
    [uint16_t] give the same result. *)
Lemma land_u8_low x k : is_u8 x -> Z.land x (to_u8 k) = Z.land x k.
Proof.
  intros Hx. unfold to_u8.
  change 256 with (2 ^ 8). rewrite <- Z.land_ones by lia.
  rewrite (Z.land_comm k), Z.land_assoc. f_equal.
  rewrite Z.land_ones by lia. apply Z.mod_small. exact Hx.
Qed.

Lemma land_u8_low16 x k : is_u8 x -> Z.land x (to_u16 k) = Z.land x k.
Proof.
  intros Hx. unfold to_u16.
  change 65536 with (2 ^ 16). rewrite <- Z.land_ones by lia.
  rewrite (Z.land_comm k), Z.land_assoc. f_equal.
  rewrite Z.land_ones by lia. apply Z.mod_small.
  unfold is_u8 in Hx. lia.
Qed.

(** ** The union *)

Lemma a8_high address :
  is_u16 address -> a8 (set_a16 address) 1 = high_byte address.
Proof.
  intros Ha. unfold a8, set_a16, high_byte, to_u16. simpl.
  rewrite (Z.mod_small address 65536) by exact Ha.
  rewrite Z.shiftr_div_pow2 by lia. reflexivity.
Qed.

Lemma a8_low address :
  is_u16 address -> a8 (set_a16 address) 0 = address mod 256.
Proof.
  intros Ha. unfold a8, set_a16, to_u16. simpl.
  rewrite (Z.mod_small address 65536) by exact Ha. reflexivity.
Qed.

Lemma high_byte_u8 address : is_u16 address -> is_u8 (high_byte address).
Proof.
  unfold is_u16, is_u8, high_byte. intros Ha.
  rewrite Z.shiftr_div_pow2 by lia. change (2 ^ 8) with 256.
  split.
  - apply Z.div_pos; lia.
  - apply Z.div_lt_upper_bound; lia.
Qed.

(** The three spellings of the bounds test agree with the spec's
    [high_byte address & capacity_mask]. *)
Lemma bounds_test_u8 h address :
  is_u16 address ->
  Z.land (a8 (set_a16 address) 1) (to_u8 (STORAGE_ARRAY_SIZE h))
  = Z.land (high_byte address) (capacity_mask h).
Proof. intros Ha. rewrite a8_high by exact Ha. reflexivity. Qed.

Lemma bounds_test_i8 h address :
  is_u16 address ->
  Z.land (a8 (set_a16 address) 1) (STORAGE_ARRAY_SIZE h)
  = Z.land (high_byte address) (capacity_mask h).
Proof.
  intros Ha. rewrite a8_high by exact Ha. unfold capacity_mask.
  symmetry. apply land_u8_low, high_byte_u8, Ha.
Qed.

Lemma bounds_test_u16 h address :
  is_u16 address ->
  Z.land (a8 (set_a16 address) 1) (to_u16 (STORAGE_ARRAY_SIZE h))
  = Z.land (high_byte address) (capacity_mask h).
Proof.
  intros Ha. rewrite a8_high by exact Ha. unfold capacity_mask.
  rewrite land_u8_low16, land_u8_low by (apply high_byte_u8, Ha).
  reflexivity.
Qed.

(** ** Methods that leave the object alone *)

Section Frame.

Context {W : Type} `{TwoWire W}.

Lemma keeps_ret {A} (a : A) : keeps_this (W:=W) (ret a).
Proof. intros m. reflexivity. Qed.

Lemma keeps_bind {A B} (c : M W A) (k : A -> M W B) :
  keeps_this c -> (forall a, keeps_this (k a)) -> keeps_this (bind c k).
Proof.
  intros Hc Hk m. unfold bind.
  specialize (Hc m). destruct (c m) as [a m']. simpl in Hc.
  rewrite Hk. exact Hc.
Qed.

Lemma keeps_if {A} (b : bool) (c1 c2 : M W A) :
  keeps_this c1 -> keeps_this c2 -> keeps_this (if b then c1 else c2).
Proof. destruct b; auto. Qed.

Lemma keeps_get_this : keeps_this (W:=W) get_this.
Proof. intros m. reflexivity. Qed.

Lemma keeps_on_wire f : keeps_this (W:=W) (on_wire f).
Proof. intros m. reflexivity. Qed.

Lemma keeps_from_wire f : keeps_this (W:=W) (from_wire f).
Proof. intros m. unfold from_wire. destruct (f (wire m)). reflexivity. Qed.

Ltac frame :=
  repeat first
    [ apply keeps_ret | apply keeps_get_this
    | apply keeps_on_wire | apply keeps_from_wire
    | apply keeps_if
    | apply keeps_bind; [ | intro ] ].

Lemma keeps_readControlRegister : keeps_this (W:=W) readControlRegister.
Proof. unfold readControlRegister; frame. Qed.

Lemma keeps_read_array_loop n : forall i values,
  keeps_this (W:=W) (read_array_loop n i values).
Proof.
  induction n as [|n IH]; intros i values; simpl.
  - apply keeps_ret.
  - apply keeps_bind; [apply keeps_from_wire | intro; apply IH].
Qed.

Lemma keeps_invoke c : keeps_this (W:=W) (invoke c).
Proof.
  destruct c; simpl;
    unfold write, read, setAutoStore, getAutoStore, store, recall,
      setWriteProtect, getWriteProtect, setEventBit, getEventBit,
      getMatch, write_array, read_array;
    repeat first
      [ apply keeps_readControlRegister | apply keeps_read_array_loop
      | progress frame ].
Qed.

Lemma this_invoke_all cs : forall m, this (invoke_all cs m) = this m.
Proof.
  induction cs as [|c cs IH]; intros m; simpl.
  - reflexivity.
  - change (this (invoke_all cs (snd (invoke c m))) = this m).
    rewrite IH. apply keeps_invoke.
Qed.

End Frame.

(** ** [begin] *)

Section Begin.

Context {W : Type} `{TwoWire W}.

(** What [begin] leaves in the object, and what it returns. *)
Lemma begin_eq A0 A1 SIZE (m : Machine W) :
  begin A0 A1 SIZE m =
  (if (SIZE =? 16) || (SIZE =? 4) then 0 else 1,
   {| this :=
        {| SRAM_REGISTER :=
             to_i8 (Z.lor 0x50
               (to_u8 (Z.shiftl (to_u8 (Z.lor (Z.shiftl A0 1) A1)) 1)));
           CONTROL_REGISTER :=
             to_i8 (Z.lor 0x18
               (to_u8 (Z.shiftl (to_u8 (Z.lor (Z.shiftl A0 1) A1)) 1)));
           STORAGE_ARRAY_SIZE :=
             if SIZE =? 4 then to_i8 0xfe else to_i8 0xf8 |};
      wire := tw_begin (wire m) |}).
Proof.
  unfold begin, bind, set_SRAM_REGISTER, set_CONTROL_REGISTER,
    set_STORAGE_ARRAY_SIZE, Wire_begin, on_wire, ret. simpl.
  destruct (SIZE =? 16) eqn:E16; destruct (SIZE =? 4) eqn:E4;
    try reflexivity.
  apply Z.eqb_eq in E16, E4. lia.
Qed.

End Begin.

(** C1.  For all pins A0, A1 in {0,1} and every density (4 and 16
    included), after [begin] the data bus address held by the object is
    0x50 | ((A0<<1 | A1)<<1) and the control bus address is
    0x18 | ((A0<<1 | A1)<<1); no sequence of calls of the other methods
    changes either of them. *)
Theorem begin_bus_addresses :
  forall (W : Type) (T : TwoWire W) (A0 A1 SIZE : Z) (m : Machine W),
    A0 = 0 \/ A0 = 1 ->
    A1 = 0 \/ A1 = 1 ->
    let m' := snd (begin A0 A1 SIZE m) in
    SRAM_REGISTER (this m')
      = Z.lor 0x50 (Z.shiftl (Z.lor (Z.shiftl A0 1) A1) 1) /\
    CONTROL_REGISTER (this m')
      = Z.lor 0x18 (Z.shiftl (Z.lor (Z.shiftl A0 1) A1) 1) /\
    forall cs : list Invocation,
      SRAM_REGISTER (this (invoke_all cs m')) = SRAM_REGISTER (this m') /\
      CONTROL_REGISTER (this (invoke_all cs m'))
        = CONTROL_REGISTER (this m').
Proof.
  intros W T A0 A1 SIZE m HA0 HA1 m'. subst m'.
  rewrite begin_eq. simpl.
  repeat split.
  - destruct HA0 as [-> | ->], HA1 as [-> | ->]; reflexivity.
  - destruct HA0 as [-> | ->], HA1 as [-> | ->]; reflexivity.
  - rewrite this_invoke_all. reflexivity.
  - rewrite this_invoke_all. reflexivity.
Qed.

Lemma begin_bus_addresses_witness :
  let m' := snd (begin 1 0 4 (boot (Sim.blank 4 512))) in
  SRAM_REGISTER (this m') = 0x54 /\
  CONTROL_REGISTER (this m') = 0x1c /\
  forall cs : list Invocation,
    SRAM_REGISTER (this (invoke_all cs m')) = SRAM_REGISTER (this m') /\
    CONTROL_REGISTER (this (invoke_all cs m')) = CONTROL_REGISTER (this m').
Proof.
  apply (begin_bus_addresses Sim.Wire _ 1 0 4 (boot (Sim.blank 4 512)));
    [right | left]; reflexivity.
Defined.

(** C4.  [begin] with density 16 leaves the capacity mask 0xF8 and
    returns 0; with density 4 it leaves 0xFE and returns 0; with any
    other density it leaves 0xF8, still sets both bus addresses, and
    returns 1.  The field is an [int8_t]: the mask is read as the byte
    the bounds tests convert it to. *)
Theorem begin_density :
  forall (W : Type) (T : TwoWire W) (A0 A1 SIZE : Z) (m : Machine W),
    let r := fst (begin A0 A1 SIZE m) in
    let h := this (snd (begin A0 A1 SIZE m)) in
    (SIZE = 16 -> capacity_mask h = 0xf8 /\ r = Ok) /\
    (SIZE = 4 -> capacity_mask h = 0xfe /\ r = Ok) /\
    (SIZE <> 16 -> SIZE <> 4 ->
       capacity_mask h = 0xf8 /\ r = InvalidArgument /\
       SRAM_REGISTER h = SRAM_REGISTER (this (snd (begin A0 A1 16 m))) /\
       CONTROL_REGISTER h
         = CONTROL_REGISTER (this (snd (begin A0 A1 16 m)))).
Proof.
  intros W T A0 A1 SIZE m r h. subst r h.
  rewrite !begin_eq. simpl.
  repeat split; intros; subst; try reflexivity.
  - destruct (Z.eqb_spec SIZE 4); [lia | reflexivity].
  - destruct (Z.eqb_spec SIZE 16); [lia |].
    destruct (Z.eqb_spec SIZE 4); [lia | reflexivity].
Qed.

Lemma begin_density_witness :
  let r := fst (begin 0 0 8 (boot (Sim.blank 0 2048))) in
  let h := this (snd (begin 0 0 8 (boot (Sim.blank 0 2048)))) in
  capacity_mask h = 0xf8 /\ r = InvalidArgument /\
  SRAM_REGISTER h = 0x50 /\ CONTROL_REGISTER h = 0x18.
Proof.
  apply (begin_density Sim.Wire _ 0 0 8 (boot (Sim.blank 0 2048))); lia.
Defined.

(** ** The bounds tests *)

Section Bounds.

Context {W : Type} `{TwoWire W}.

Lemma write_rejects address value (m : Machine W) :
  is_u16 address -> out_of_bounds (this m) address ->
  write address value m = (5, m).
Proof.
  intros Ha Hoob. unfold write. run.
  rewrite bounds_test_u8 by exact Ha.
  destruct (Z.eqb_spec (Z.land (high_byte address)
                               (capacity_mask (this m))) 0) as [E|E].
  - contradiction.
  - reflexivity.
Qed.

Lemma read_rejects address (m : Machine W) :
  is_u16 address -> out_of_bounds (this m) address ->
  read address m = (0, m).
Proof.
  intros Ha Hoob. unfold read. run.
  rewrite bounds_test_u8 by exact Ha.
  destruct (Z.eqb_spec (Z.land (high_byte address)
                               (capacity_mask (this m))) 0) as [E|E].
  - contradiction.
  - reflexivity.
Qed.

Lemma write_array_rejects address values size (m : Machine W) :
  is_u16 address -> out_of_bounds (this m) address ->
  write_array address values size m = (5, m).
Proof.
  intros Ha Hoob. unfold write_array. run.
  rewrite bounds_test_i8 by exact Ha.
  destruct (Z.eqb_spec (Z.land (high_byte address)
                               (capacity_mask (this m))) 0) as [E|E].
  - contradiction.
  - reflexivity.
Qed.


Lemma read_array_rejects address values size (m : Machine W) :
  is_u16 address -> out_of_bounds (this m) address ->
  read_array address values size m = (Some 5, values, m).
Proof.
  intros Ha Hoob. unfold read_array. run.
  rewrite bounds_test_u16 by exact Ha.
  destruct (Z.eqb_spec (Z.land (high_byte address)
                               (capacity_mask (this m))) 0) as [E|E].
  - contradiction.
  - reflexivity.
Qed.

Lemma read_array_accepts address values size (m : Machine W) :
  is_u16 address -> in_bounds (this m) address ->
  fst (fst (read_array address values size m)) = None.
Proof.
  intros Ha Hin. unfold read_array.
  unfold bind at 1. unfold get_this.
  rewrite bounds_test_u16 by exact Ha.
  unfold in_bounds in Hin. rewrite Hin. simpl.
  run. reflexivity.
Qed.

End Bounds.

Lemma bounds_dec h address :
  in_bounds h address \/ out_of_bounds h address.
Proof.
  unfold in_bounds, out_of_bounds.
  destruct (Z.eq_dec (Z.land (high_byte address) (capacity_mask h)) 0);
    [left | right]; assumption.
Qed.


(** C2, as the code has it.  For every 16-bit offset whose high byte
    ANDed with the capacity mask is nonzero, the single-byte [write]
    returns 5 (out of bounds) and the single-byte [read] returns the
    byte 0, which is all it returns; both leave the transport exactly as
    they found it, so no call is made on the bus. *)
Theorem byte_access_out_of_bounds :
  forall (W : Type) (T : TwoWire W) (m : Machine W) (address value : Z),
    is_u16 address ->
    Z.land (high_byte address) (capacity_mask (this m)) <> 0 ->
    write address value m = (OutOfBounds, m) /\
    read address m = (0, m).
Proof.
  intros W T m address value Ha Hoob. split.
  - apply write_rejects; assumption.
  - apply read_rejects; assumption.
Qed.

Lemma byte_access_out_of_bounds_witness :
  write 0x0800 7 recorded_bench = (OutOfBounds, recorded_bench) /\
  read 0x0800 recorded_bench = (0, recorded_bench).
Proof.
  apply (byte_access_out_of_bounds _ _ recorded_bench 0x0800 7).
  - unfold is_u16. lia.
  - vm_compute. discriminate.
Defined.

(** C2, as the spec has it, fails: [read] returns one byte and no
    status.  On a 47x16, offset 0x0800 is out of bounds and [read]
    returns 0, which is not the out-of-bounds code; it is also what the
    in-bounds [read] of a zero cell returns, so nothing computed from
    the result can tell the two apart. *)
Lemma read_out_of_bounds_has_no_status :
  Z.land (high_byte 0x0800) (capacity_mask (this bench)) <> 0 /\
  fst (read 0x0800 bench) = 0 /\
  fst (read 0x0800 bench) <> OutOfBounds /\
  ~ (exists status_of : Z -> Z,
       status_of (fst (read 0x0800 bench)) = OutOfBounds /\
       status_of (fst (read 0x0000 bench)) = Ok).
Proof.
  repeat split.
  - vm_compute. discriminate.
  - vm_compute. discriminate.
  - intros [status_of [Hoob Hok]].
    change (fst (read 0x0800 bench)) with 0 in Hoob.
    change (fst (read 0x0000 bench)) with 0 in Hok.
    rewrite Hoob in Hok. discriminate.
Qed.

(** A block that starts on the last cell of a 47x16 and runs three
    bytes is accepted: the chip wraps and the second byte lands on
    cell 0. *)
Example block_write_runs_past_the_end :
  let (s, m) := write_array 0x07ff [1; 2; 3] 3 bench in
  s = Ok /\ fst (read 0x0000 m) = 2.
Proof. vm_compute. split; reflexivity. Qed.

(** C6.  The block [read] is declared [uint8_t], yet only the bounds
    failure executes a [return]: out of bounds it returns 5 and touches
    neither the array nor the bus; in bounds control reaches the end of
    the body and no value is returned. *)
Theorem read_array_returns_only_out_of_bounds :
  forall (W : Type) (T : TwoWire W) (m : Machine W)
         (address : Z) (values : list Z) (size : Z),
    is_u16 address ->
    (Z.land (high_byte address) (capacity_mask (this m)) <> 0 ->
       read_array address values size m = (Some OutOfBounds, values, m)) /\
    (Z.land (high_byte address) (capacity_mask (this m)) = 0 ->
       fst (fst (read_array address values size m)) = None).
Proof.
  intros W T m address values size Ha. split; intros Hb.
  - apply read_array_rejects; assumption.
  - apply read_array_accepts; assumption.
Qed.

Lemma read_array_returns_only_out_of_bounds_witness :
  read_array 0x0800 [9; 9] 2 bench = (Some OutOfBounds, [9; 9], bench) /\
  fst (fst (read_array 0x0123 [9; 9] 2 bench)) = None.
Proof.
  split.
  - apply (read_array_returns_only_out_of_bounds _ _ bench 0x0800 [9; 9] 2).
    + unfold is_u16. lia.
    + vm_compute. discriminate.
  - apply (read_array_returns_only_out_of_bounds _ _ bench 0x0123 [9; 9] 2).
    + unfold is_u16. lia.
    + vm_compute. reflexivity.
Defined.

(** ** The transactions behind the methods *)

Section Methods.

Context {W : Type} `{TwoWire W}.

Lemma write_accepts address value (m : Machine W) :
  is_u16 address -> in_bounds (this m) address ->
  write address value m =
  (fst (wire_send (SRAM_REGISTER (this m))
          [a8 (set_a16 address) 1; a8 (set_a16 address) 0; value]
          (wire m)),
   on m (snd (wire_send (SRAM_REGISTER (this m))
          [a8 (set_a16 address) 1; a8 (set_a16 address) 0; value]
          (wire m)))).
Proof.
  intros Ha Hin. unfold write.
  unfold bind at 1. unfold get_this.
  rewrite bounds_test_u8 by exact Ha.
  unfold in_bounds in Hin. rewrite Hin. simpl.
  unfold wire_send, on. run. reflexivity.
Qed.

Lemma read_accepts address (m : Machine W) :
  is_u16 address -> in_bounds (this m) address ->
  let w1 := snd (wire_send (SRAM_REGISTER (this m))
                   [a8 (set_a16 address) 1; a8 (set_a16 address) 0]
                   (wire m)) in
  read address m =
  (fst (wire_fetch (SRAM_REGISTER (this m)) w1),
   on m (snd (wire_fetch (SRAM_REGISTER (this m)) w1))).
Proof.
  intros Ha Hin. unfold read.
  unfold bind at 1. unfold get_this.
  rewrite bounds_test_u8 by exact Ha.
  unfold in_bounds in Hin. rewrite Hin. simpl.
  unfold wire_send, wire_fetch, on. run. reflexivity.
Qed.

Lemma readControlRegister_eq (m : Machine W) :
  let w1 := snd (wire_send (CONTROL_REGISTER (this m)) [0x00] (wire m)) in
  readControlRegister m =
  (fst (wire_fetch (CONTROL_REGISTER (this m)) w1),
   on m (snd (wire_fetch (CONTROL_REGISTER (this m)) w1))).
Proof.
  unfold readControlRegister, wire_send, wire_fetch, on. run. reflexivity.
Qed.

Lemma readControlRegister_u8 (m : Machine W) :
  is_u8 (fst (readControlRegister m)).
Proof.
  rewrite readControlRegister_eq. simpl. unfold wire_fetch.
  destruct (tw_read _). simpl. apply to_u8_range.
Qed.

Lemma readControlRegister_this (m : Machine W) :
  this (snd (readControlRegister m)) = this m.
Proof. apply keeps_readControlRegister. Qed.

Lemma setAutoStore_eq value (m : Machine W) :
  let old := fst (readControlRegister m) in
  setAutoStore value m =
  (tt, put_back
         (to_u8 (if value then Z.lor old 0x02 else Z.land old 0xfd))
         (snd (readControlRegister m))).
Proof.
  simpl. unfold setAutoStore. unfold bind at 1.
  destruct (readControlRegister m) as [old m1]. simpl.
  unfold put_back, wire_send, on. run. reflexivity.
Qed.

Lemma setEventBit_eq value (m : Machine W) :
  let old := fst (readControlRegister m) in
  setEventBit value m =
  (tt, put_back
         (to_u8 (if value then Z.lor old 0x01 else Z.land old 0xfe))
         (snd (readControlRegister m))).
Proof.
  simpl. unfold setEventBit. unfold bind at 1.
  destruct (readControlRegister m) as [old m1]. simpl.
  unfold put_back, wire_send, on. run. reflexivity.
Qed.

Lemma setWriteProtect_eq prot (m : Machine W) :
  Z.land prot 0xf8 = 0 ->
  let old := fst (readControlRegister m) in
  setWriteProtect prot m =
  (0, put_back
        (to_u8 (Z.lor (Z.land old 0xe3) (Z.shiftl prot 2)))
        (snd (readControlRegister m))).
Proof.
  intros Hp. simpl. unfold setWriteProtect. rewrite Hp. simpl.
  unfold bind at 1.
  destruct (readControlRegister m) as [old m1]. simpl.
  unfold put_back, wire_send, on. run. reflexivity.
Qed.

Lemma setWriteProtect_rejects prot (m : Machine W) :
  Z.land prot 0xf8 <> 0 -> setWriteProtect prot m = (1, m).
Proof.
  intros Hp. unfold setWriteProtect.
  destruct (Z.eqb_spec (Z.land prot 0xf8) 0); [contradiction |].
  reflexivity.
Qed.

Lemma getWriteProtect_eq (m : Machine W) :
  getWriteProtect m =
  (to_u8 (Z.shiftr (Z.land (fst (readControlRegister m)) 0x1c) 2),
   snd (readControlRegister m)).
Proof.
  unfold getWriteProtect, bind, ret.
  destruct (readControlRegister m). reflexivity.
Qed.

Lemma getMatch_eq (m : Machine W) :
  getMatch m =
  (Z.land (fst (readControlRegister m)) 0x80 =? 0,
   snd (readControlRegister m)).
Proof.
  unfold getMatch, bind, ret.
  destruct (readControlRegister m). reflexivity.
Qed.

Lemma store_eq (m : Machine W) :
  store m =
  (tt, on m (snd (wire_send (CONTROL_REGISTER (this m)) [0x55; 0x33]
                            (wire m)))).
Proof. unfold store, wire_send, on. run. reflexivity. Qed.

Lemma recall_eq (m : Machine W) :
  recall m =
  (tt, on m (snd (wire_send (CONTROL_REGISTER (this m)) [0x55; 0xdd]
                            (wire m)))).
Proof. unfold recall, wire_send, on. run. reflexivity. Qed.

End Methods.

(** ** What the recorder sees *)

Section Recorded.

Context {W : Type} `{TwoWire W}.

Import Recorder.

Lemma recorded_writes payload : forall w : Recorder.Wire W,
  calls (fold_left (fun w b => tw_write b w) payload w)
  = calls w ++ map write_call payload.
Proof.
  induction payload as [|b payload IH]; intros w; simpl.
  - rewrite app_nil_r. reflexivity.
  - rewrite IH. simpl. rewrite <- app_assoc. reflexivity.
Qed.

Lemma recorded_send a payload (w : Recorder.Wire W) :
  calls (snd (wire_send a payload w)) = calls w ++ send_calls a payload.
Proof.
  unfold wire_send. simpl. unfold note_result.
  destruct (tw_endTransmission _) as [r w']. simpl.
  rewrite recorded_writes. simpl.
  unfold send_calls. rewrite <- !app_assoc. reflexivity.
Qed.

Lemma recorded_fetch a (w : Recorder.Wire W) :
  calls (snd (wire_fetch a w))
  = calls w ++ [requestFrom_call a 1; read_call; endTransmission_call].
Proof.
  unfold wire_fetch. simpl. unfold note_result. simpl.
  destruct (tw_read _) as [r w1]. simpl.
  destruct (tw_endTransmission _) as [s w2]. simpl.
  rewrite <- !app_assoc. reflexivity.
Qed.

Lemma recorded_readControlRegister (m : Machine (Recorder.Wire W)) :
  calls (wire (snd (readControlRegister m)))
  = calls (wire m) ++ fetch_calls (CONTROL_REGISTER (this m)).
Proof.
  rewrite readControlRegister_eq. cbn [snd wire on].
  rewrite recorded_fetch, recorded_send.
  rewrite <- app_assoc. reflexivity.
Qed.

Lemma recorded_put_back new (m : Machine (Recorder.Wire W)) :
  calls (wire (put_back new (snd (readControlRegister m))))
  = calls (wire m) ++ fetch_calls (CONTROL_REGISTER (this m))
      ++ send_calls (CONTROL_REGISTER (this m)) [0x00; new].
Proof.
  unfold put_back. cbn [snd wire on]. rewrite recorded_send.
  rewrite readControlRegister_this, recorded_readControlRegister.
  rewrite <- app_assoc. reflexivity.
Qed.

End Recorded.

(** ** Bit fields of the control register *)

Lemma same_outside_of_land field old new :
  Z.land new (Z.lnot field) = Z.land old (Z.lnot field) ->
  same_outside field old new.
Proof.
  intros E i Hi.
  destruct (Z.ltb_spec i 0) as [Hneg | Hpos].
  - rewrite !Z.testbit_neg_r by exact Hneg. reflexivity.
  - assert (Hbit : Z.testbit (Z.land new (Z.lnot field)) i
                   = Z.testbit (Z.land old (Z.lnot field)) i)
      by (rewrite E; reflexivity).
    rewrite !Z.land_spec, Z.lnot_spec, Hi in Hbit by exact Hpos.
    simpl in Hbit. rewrite !andb_true_r in Hbit. exact Hbit.
Qed.

Lemma autoStore_byte_field value old :
  is_u8 old ->
  same_outside 0x02 old (autoStore_byte value old) /\
  Z.testbit (autoStore_byte value old) 1 = value.
Proof.
  intros Hold.
  assert (Hc : (Z.land (autoStore_byte value old) (Z.lnot 0x02)
                  =? Z.land old (Z.lnot 0x02))
               && eqb (Z.testbit (autoStore_byte value old) 1) value = true).
  { revert old Hold. apply check_u8. destruct value; vm_compute; reflexivity. }
  apply andb_true_iff in Hc. destruct Hc as [Hframe Hbit].
  split.
  - apply same_outside_of_land, Z.eqb_eq, Hframe.
  - apply eqb_prop, Hbit.
Qed.

Lemma eventBit_byte_field value old :
  is_u8 old ->
  same_outside 0x01 old (eventBit_byte value old) /\
  Z.testbit (eventBit_byte value old) 0 = value.
Proof.
  intros Hold.
  assert (Hc : (Z.land (eventBit_byte value old) (Z.lnot 0x01)
                  =? Z.land old (Z.lnot 0x01))
               && eqb (Z.testbit (eventBit_byte value old) 0) value = true).
  { revert old Hold. apply check_u8. destruct value; vm_compute; reflexivity. }
  apply andb_true_iff in Hc. destruct Hc as [Hframe Hbit].
  split.
  - apply same_outside_of_land, Z.eqb_eq, Hframe.
  - apply eqb_prop, Hbit.
Qed.

(** The eight protection levels. *)
Lemma level_cases prot :
  0 <= prot <= 7 -> In prot [0; 1; 2; 3; 4; 5; 6; 7].
Proof. intros Hp. simpl. lia. Qed.

Lemma writeProtect_byte_field prot old :
  0 <= prot <= 7 -> is_u8 old ->
  same_outside 0x1c old (writeProtect_byte prot old) /\
  Z.shiftr (Z.land (writeProtect_byte prot old) 0x1c) 2 = prot.
Proof.
  intros Hp Hold.
  assert (Hc : (Z.land (writeProtect_byte prot old) (Z.lnot 0x1c)
                  =? Z.land old (Z.lnot 0x1c))
               && (Z.shiftr (Z.land (writeProtect_byte prot old) 0x1c) 2
                     =? prot) = true).
  { revert old Hold. apply check_u8.
    apply level_cases in Hp. simpl in Hp.
    repeat (destruct Hp as [<- | Hp]; [vm_compute; reflexivity |]).
    contradiction. }
  apply andb_true_iff in Hc. destruct Hc as [Hframe Hlevel].
  split.
  - apply same_outside_of_land, Z.eqb_eq, Hframe.
  - apply Z.eqb_eq, Hlevel.
Qed.

Lemma level_fits prot : 0 <= prot <= 7 -> Z.land prot 0xf8 = 0.
Proof.
  intros Hp. apply level_cases in Hp. simpl in Hp.
  repeat (destruct Hp as [<- | Hp]; [reflexivity |]). contradiction.
Qed.

Lemma level_too_large prot :
  is_u8 prot -> 7 < prot -> Z.land prot 0xf8 <> 0.
Proof.
  intros Hu Hp.
  assert (Hc : (prot <=? 7) || negb (Z.land prot 0xf8 =? 0) = true).
  { revert prot Hu Hp. intros prot Hu _. revert prot Hu.
    apply check_u8. vm_compute. reflexivity. }
  apply orb_true_iff in Hc. destruct Hc as [Hc | Hc].
  - apply Z.leb_le in Hc. lia.
  - apply negb_true_iff, Z.eqb_neq in Hc. exact Hc.
Qed.

(** C8.  Each setter of a control bit fetches the control register and
    then sends, in one transaction to the control address, register
    number 0 and a byte that differs from the byte just fetched only in
    the setter's own field: [setAutoStore] only in bit 1, [setEventBit]
    only in bit 0, [setWriteProtect] (for a level 0..7) only in bits
    2..4.  The field itself holds the requested value. *)
Theorem setters_touch_only_their_field :
  forall (W : Type) (T : TwoWire W) (m : Machine (Recorder.Wire W)),
    let c := CONTROL_REGISTER (this m) in
    let old := fst (readControlRegister m) in
    let sends (m' : Machine (Recorder.Wire W)) (new : Z) :=
      Recorder.calls (wire m')
      = Recorder.calls (wire m) ++ Recorder.fetch_calls c
          ++ Recorder.send_calls c [0x00; new] in
    (forall value : bool, exists new,
        sends (snd (setAutoStore value m)) new /\
        same_outside 0x02 old new /\ Z.testbit new 1 = value) /\
    (forall value : bool, exists new,
        sends (snd (setEventBit value m)) new /\
        same_outside 0x01 old new /\ Z.testbit new 0 = value) /\
    (forall prot : Z, 0 <= prot <= 7 -> exists new,
        sends (snd (setWriteProtect prot m)) new /\
        same_outside 0x1c old new /\
        Z.shiftr (Z.land new 0x1c) 2 = prot).
Proof.
  intros W T m c old sends. subst c old sends. cbv beta.
  pose proof (readControlRegister_u8 m) as Hold.
  repeat split.
  - intros value.
    exists (autoStore_byte value (fst (readControlRegister m))).
    rewrite setAutoStore_eq. cbn [snd].
    split; [apply recorded_put_back |].
    apply autoStore_byte_field, Hold.
  - intros value.
    exists (eventBit_byte value (fst (readControlRegister m))).
    rewrite setEventBit_eq. cbn [snd].
    split; [apply recorded_put_back |].
    apply eventBit_byte_field, Hold.
  - intros prot Hp.
    exists (writeProtect_byte prot (fst (readControlRegister m))).
    rewrite setWriteProtect_eq by (apply level_fits, Hp). cbn [snd].
    split; [apply recorded_put_back |].
    apply writeProtect_byte_field; assumption.
Qed.

Lemma setters_touch_only_their_field_witness :
  exists new,
    Recorder.calls (wire (snd (setWriteProtect 5 recorded_bench)))
    = Recorder.calls (wire recorded_bench) ++ Recorder.fetch_calls 0x18
        ++ Recorder.send_calls 0x18 [0x00; new] /\
    same_outside 0x1c (fst (readControlRegister recorded_bench)) new /\
    Z.shiftr (Z.land new 0x1c) 2 = 5.
Proof.
  apply (proj2 (proj2
           (setters_touch_only_their_field _ _ recorded_bench)) 5).
  lia.
Defined.

(** C9.  [store] makes exactly four calls on the transport:
    [beginTransmission] on the control address, [write 0x55],
    [write 0x33], [endTransmission]; [recall] the same with 0xDD for
    0x33.  Neither requests or reads a byte, and both return nothing. *)
Theorem store_recall_commands :
  forall (W : Type) (T : TwoWire W) (m : Machine (Recorder.Wire W)),
    Recorder.calls (wire (snd (store m)))
    = Recorder.calls (wire m)
        ++ [Recorder.beginTransmission_call (CONTROL_REGISTER (this m));
            Recorder.write_call 0x55; Recorder.write_call 0x33;
            Recorder.endTransmission_call] /\
    Recorder.calls (wire (snd (recall m)))
    = Recorder.calls (wire m)
        ++ [Recorder.beginTransmission_call (CONTROL_REGISTER (this m));
            Recorder.write_call 0x55; Recorder.write_call 0xdd;
            Recorder.endTransmission_call] /\
    fst (store m) = tt /\ fst (recall m) = tt.
Proof.
  intros W T m. rewrite store_eq, recall_eq. cbn [fst snd wire on].
  rewrite !recorded_send. repeat split.
Qed.

(** On the bench the two commands reach the chip: after a write and a
    [store], a second write followed by [recall] brings the stored
    byte back. *)
Example store_then_recall :
  let m := snd (write 0x0010 0xaa bench) in
  let m := snd (store m) in
  let m := snd (write 0x0010 0x55 m) in
  let m := snd (recall m) in
  fst (read 0x0010 m) = 0xaa.
Proof. vm_compute. reflexivity. Qed.

(** ** The simulated chip *)

Section Simulated.

Import Sim.

Lemma sim_writes payload : forall w : Sim.Wire,
  fold_left (fun w b => tw_write b w) payload w
  = {| chip := chip w; txAddress := txAddress w;
       txBuffer := txBuffer w ++ map to_u8 payload;
       rxBuffer := rxBuffer w |}.
Proof.
  induction payload as [|b payload IH]; intros w.
  - simpl. rewrite app_nil_r. destruct w; reflexivity.
  - cbn [fold_left]. rewrite IH. cbn [tw_write wire_TwoWire].
    unfold Sim.write. cbn [chip txAddress txBuffer rxBuffer map].
    rewrite <- app_assoc. reflexivity.
Qed.

Lemma sim_send_data a payload (w : Sim.Wire) :
  to_u8 a = Z.lor 0x50 (pins (chip w)) ->
  wire_send a payload w
  = (0, {| chip := data_write (map to_u8 payload) (chip w);
           txAddress := to_u8 a; txBuffer := [];
           rxBuffer := rxBuffer w |}).
Proof.
  intros Ha. unfold wire_send. rewrite sim_writes.
  cbn [tw_endTransmission tw_beginTransmission wire_TwoWire].
  unfold endTransmission, beginTransmission.
  cbn [chip txAddress txBuffer rxBuffer app].
  rewrite Ha, Z.eqb_refl. reflexivity.
Qed.

Lemma sim_send_control a payload (w : Sim.Wire) :
  to_u8 a = Z.lor 0x18 (pins (chip w)) ->
  Z.lor 0x18 (pins (chip w)) <> Z.lor 0x50 (pins (chip w)) ->
  wire_send a payload w
  = (0, {| chip := control_write (map to_u8 payload) (chip w);
           txAddress := to_u8 a; txBuffer := [];
           rxBuffer := rxBuffer w |}).
Proof.
  intros Ha Hne. unfold wire_send. rewrite sim_writes.
  cbn [tw_endTransmission tw_beginTransmission wire_TwoWire].
  unfold endTransmission, beginTransmission.
  cbn [chip txAddress txBuffer rxBuffer app].
  rewrite Ha, Z.eqb_refl.
  destruct (Z.eqb_spec (Z.lor 0x18 (pins (chip w)))
                       (Z.lor 0x50 (pins (chip w)))); [contradiction |].
  reflexivity.
Qed.

Lemma sim_fetch_data a (w : Sim.Wire) :
  to_u8 a = Z.lor 0x50 (pins (chip w)) ->
  txAddress w = to_u8 a -> txBuffer w = [] ->
  fst (wire_fetch a w) = to_u8 (peek (sram (chip w)) (pointer (chip w))).
Proof.
  intros Ha Htx Hbuf. unfold wire_fetch.
  cbn [tw_requestFrom tw_read wire_TwoWire].
  unfold requestFrom. rewrite Ha, Z.eqb_refl.
  change (Z.to_nat 1) with 1%nat. cbn [data_read].
  unfold Sim.read. cbn [rxBuffer fst]. reflexivity.
Qed.

Lemma sim_fetch_control a (w : Sim.Wire) :
  to_u8 a = Z.lor 0x18 (pins (chip w)) ->
  Z.lor 0x18 (pins (chip w)) <> Z.lor 0x50 (pins (chip w)) ->
  txAddress w = to_u8 a -> txBuffer w = [] ->
  wire_fetch a w
  = (to_u8 (status (chip w)),
     {| chip := chip w; txAddress := to_u8 a; txBuffer := [];
        rxBuffer := [] |}).
Proof.
  intros Ha Hne Htx Hbuf. unfold wire_fetch.
  cbn [tw_requestFrom tw_read tw_endTransmission wire_TwoWire].
  unfold requestFrom. rewrite Ha.
  destruct (Z.eqb_spec (Z.lor 0x18 (pins (chip w)))
                       (Z.lor 0x50 (pins (chip w)))); [contradiction |].
  rewrite Z.eqb_refl.
  change (Z.to_nat 1) with 1%nat. cbn [repeat].
  unfold Sim.read. cbn [rxBuffer chip txAddress txBuffer].
  unfold endTransmission. cbn [rxBuffer chip txAddress txBuffer snd].
  rewrite Htx, Ha, Hbuf.
  destruct (Z.eqb_spec (Z.lor 0x18 (pins (chip w)))
                       (Z.lor 0x50 (pins (chip w)))); [contradiction |].
  rewrite Z.eqb_refl. cbn [snd control_write]. reflexivity.
Qed.

(** What [attached] gives: the two addresses reach the chip, and they
    are two different addresses. *)
Lemma attached_addresses (m : Machine Sim.Wire) :
  attached m ->
  to_u8 (SRAM_REGISTER (this m)) = Z.lor 0x50 (pins (chip (wire m))) /\
  to_u8 (CONTROL_REGISTER (this m)) = Z.lor 0x18 (pins (chip (wire m))) /\
  Z.lor 0x18 (pins (chip (wire m))) <> Z.lor 0x50 (pins (chip (wire m))).
Proof.
  intros [Hsel [-> ->]]. simpl in Hsel.
  destruct Hsel as [<- | [<- | [<- | [<- | []]]]];
    repeat split; vm_compute; congruence.
Qed.

(** The control register as the driver reads it from an attached
    chip: the STATUS byte, with nothing else changed on the chip. *)
Lemma sim_readControlRegister (m : Machine Sim.Wire) :
  attached m ->
  fst (readControlRegister m) = to_u8 (status (chip (wire m))) /\
  this (snd (readControlRegister m)) = this m /\
  chip (wire (snd (readControlRegister m))) = chip (wire m).
Proof.
  intros Hm. destruct (attached_addresses m Hm) as [_ [Hc Hne]].
  rewrite readControlRegister_eq. cbv zeta.
  rewrite (sim_send_control _ _ _ Hc Hne). cbn [snd fst].
  rewrite sim_fetch_control; cbn [chip txAddress txBuffer];
    try reflexivity; try assumption.
  cbn [fst snd this wire on chip control_write map].
  repeat split.
Qed.

End Simulated.

(** [begin] attaches the object to a chip wired with the same pins. *)
Lemma begin_attaches A0 A1 SIZE (m : Machine Sim.Wire) :
  A0 = 0 \/ A0 = 1 -> A1 = 0 \/ A1 = 1 ->
  Sim.pins (Sim.chip (wire m)) = select_bits A0 A1 ->
  Sim.attached (snd (begin A0 A1 SIZE m)).
Proof.
  intros HA0 HA1 Hpins. rewrite begin_eq. unfold Sim.attached.
  cbn [snd this wire SRAM_REGISTER CONTROL_REGISTER tw_begin
       Sim.wire_TwoWire]. unfold Sim.begin. rewrite Hpins.
  destruct HA0 as [-> | ->], HA1 as [-> | ->];
    vm_compute; repeat split; auto.
Qed.

Lemma sim_pins_pokes data : forall c,
  Sim.pins (fold_left (fun c b => Sim.poke b c) data c) = Sim.pins c.
Proof.
  induction data as [|b data IH]; intros c; simpl.
  - reflexivity.
  - rewrite IH. reflexivity.
Qed.

Lemma sim_pins_data_write payload c :
  Sim.pins (Sim.data_write payload c) = Sim.pins c.
Proof.
  destruct payload as [|hi [|lo data]]; try reflexivity.
  unfold Sim.data_write. rewrite sim_pins_pokes. reflexivity.
Qed.

(** A byte written at an address is the byte found there when the
    pointer is set to the same address again. *)
Lemma sim_chip_round_trip hi lo v c :
  let c2 := Sim.data_write [hi; lo] (Sim.data_write [hi; lo; v] c) in
  Sim.peek (Sim.sram c2) (Sim.pointer c2) = v.
Proof.
  cbn [Sim.data_write fold_left].
  unfold Sim.poke, Sim.with_pointer, Sim.peek.
  cbn [Sim.sram Sim.pointer Sim.cells].
  rewrite lookup_insert_eq. reflexivity.
Qed.

Lemma bench_attached : Sim.attached bench.
Proof.
  apply begin_attaches; [left | left |]; reflexivity.
Qed.

(** C3.  On the simulated chip, for every in-bounds address and every
    byte [v], [write] returns 0 (success) and the [read] of the same
    address that follows returns [v]. *)
Theorem write_then_read :
  forall (m : Machine Sim.Wire) (address value : Z),
    Sim.attached m ->
    is_u16 address -> is_u8 value ->
    Z.land (high_byte address) (capacity_mask (this m)) = 0 ->
    fst (write address value m) = Ok /\
    fst (read address (snd (write address value m))) = value.
Proof.
  intros m address value Hm Ha Hv Hin.
  destruct (attached_addresses m Hm) as [Hd _].
  rewrite (write_accepts address value m Ha Hin).
  rewrite (sim_send_data _ _ _ Hd). cbn [fst snd]. split; [reflexivity |].
  set (w1 := {| Sim.chip := _ |}).
  assert (Hd1 : to_u8 (SRAM_REGISTER (this (on m w1)))
                = Z.lor 0x50 (Sim.pins (Sim.chip (wire (on m w1))))).
  { cbn [on this wire]. subst w1. cbn [Sim.chip].
    rewrite sim_pins_data_write. exact Hd. }
  rewrite (read_accepts address (on m w1) Ha Hin). cbv zeta. cbn [fst].
  rewrite (sim_send_data _ _ _ Hd1). cbn [snd].
  rewrite sim_fetch_data.
  - cbn [Sim.chip]. subst w1. cbn [on wire Sim.chip map].
    rewrite sim_chip_round_trip. rewrite !to_u8_small; auto using to_u8_range.
  - cbn [Sim.chip]. rewrite sim_pins_data_write. exact Hd1.
  - reflexivity.
  - reflexivity.
Qed.

Lemma write_then_read_witness :
  fst (write 0x0123 0x2a bench) = Ok /\
  fst (read 0x0123 (snd (write 0x0123 0x2a bench))) = 0x2a.
Proof.
  apply (write_then_read bench 0x0123 0x2a).
  - exact bench_attached.
  - unfold is_u16. lia.
  - unfold is_u8. lia.
  - reflexivity.
Defined.

(** The level read back from STATUS after the driver's byte has been
    written to it. *)
Lemma sim_level_readback s prot :
  0 <= prot <= 7 ->
  to_u8 (Z.shiftr
    (Z.land
      (to_u8 (Z.lor (Z.land s 0x80)
                    (Z.land (to_u8 (writeProtect_byte prot (to_u8 s))) 0x1f)))
      0x1c) 2) = prot.
Proof.
  intros Hp.
  replace (Z.land s 0x80) with (Z.land (to_u8 s) 0x80)
    by (rewrite !(Z.land_comm _ 0x80); apply land_u8_low;
        unfold is_u8; lia).
  generalize (to_u8 s) (to_u8_range s). intros b Hb.
  apply Z.eqb_eq. revert b Hb. apply check_u8.
  apply level_cases in Hp. simpl in Hp.
  repeat (destruct Hp as [<- | Hp]; [vm_compute; reflexivity |]).
  contradiction.
Qed.

(** C7.  For every level above 7, [setWriteProtect] returns 1 (invalid
    argument) and leaves the transport untouched; for every level 0..7,
    on the simulated chip, [setWriteProtect] returns 0 and the
    [getWriteProtect] that follows returns that level. *)
Theorem write_protect_level :
  (forall (W : Type) (T : TwoWire W) (m : Machine W) (prot : Z),
      is_u8 prot -> 7 < prot ->
      setWriteProtect prot m = (InvalidArgument, m)) /\
  (forall (m : Machine Sim.Wire) (prot : Z),
      Sim.attached m -> 0 <= prot <= 7 ->
      fst (setWriteProtect prot m) = Ok /\
      fst (getWriteProtect (snd (setWriteProtect prot m))) = prot).
Proof.
  split.
  - intros W T m prot Hu Hp.
    apply setWriteProtect_rejects, level_too_large; assumption.
  - intros m prot Hm Hp.
    rewrite (setWriteProtect_eq prot m (level_fits prot Hp)). cbv zeta.
    cbn [fst snd]. split; [reflexivity |].
    destruct (sim_readControlRegister m Hm) as [Hold [Hthis Hchip]].
    destruct (attached_addresses m Hm) as [_ [Hc Hne]].
    set (m1 := snd (readControlRegister m)) in *.
    unfold put_back. rewrite Hthis.
    rewrite sim_send_control by (rewrite Hchip; assumption).
    cbn [snd]. rewrite Hchip, Hold.
    set (m2 := on m1 _).
    assert (Hm2 : Sim.attached m2).
    { destruct Hm as [Hsel [Hs Hcr]]. subst m2. unfold Sim.attached.
      cbn [on this wire Sim.chip map]. change (to_u8 0) with 0.
      cbn [Sim.control_write Sim.with_status Sim.pins].
      rewrite Hthis. repeat split; assumption. }
    rewrite getWriteProtect_eq. cbn [fst].
    destruct (sim_readControlRegister m2 Hm2) as [Hold2 _].
    rewrite Hold2. subst m2. cbn [on wire Sim.chip map].
    change (to_u8 0) with 0.
    cbn [Sim.control_write Sim.with_status Sim.status].
    apply sim_level_readback, Hp.
Qed.

Lemma write_protect_level_witness :
  setWriteProtect 8 bench = (InvalidArgument, bench) /\
  fst (setWriteProtect 5 bench) = Ok /\
  fst (getWriteProtect (snd (setWriteProtect 5 bench))) = 5.
Proof.
  split.
  - apply (proj1 write_protect_level _ _ bench 8); unfold is_u8; lia.
  - apply (proj2 write_protect_level bench 5); [exact bench_attached | lia].
Defined.

Lemma match_bit b :
  is_u8 b -> (Z.land b 0x80 =? 0) = negb (Z.testbit b 7).
Proof.
  intros Hb. apply eqb_prop. revert b Hb. apply check_u8.
  vm_compute. reflexivity.
Qed.

(** C10.  Whatever byte the control register yields, [getMatch]
    returns true exactly when bit 7 of that byte is 0; on the simulated
    chip it returns true when STATUS is 0x00 and false when STATUS is
    0x80. *)
Theorem getMatch_inverted :
  (forall (W : Type) (T : TwoWire W) (m : Machine W),
      fst (getMatch m) = true
      <-> Z.testbit (fst (readControlRegister m)) 7 = false) /\
  (forall m : Machine Sim.Wire,
      Sim.attached m ->
      (Sim.status (Sim.chip (wire m)) = 0x00 -> fst (getMatch m) = true) /\
      (Sim.status (Sim.chip (wire m)) = 0x80 -> fst (getMatch m) = false)).
Proof.
  split.
  - intros W T m. rewrite getMatch_eq. cbn [fst].
    rewrite match_bit by apply readControlRegister_u8.
    destruct (Z.testbit _ 7); simpl; split; congruence.
  - intros m Hm. rewrite getMatch_eq. cbn [fst].
    destruct (sim_readControlRegister m Hm) as [-> _].
    split; intros ->; reflexivity.
Qed.

Lemma getMatch_inverted_witness :
  fst (getMatch bench) = true /\
  fst (getMatch (snd (write 0x0000 0x01 bench))) = false.
Proof.
  split.
  - apply (proj2 getMatch_inverted bench bench_attached). reflexivity.
  - apply (proj2 getMatch_inverted (snd (write 0x0000 0x01 bench))).
    + vm_compute. repeat split; auto.
    + reflexivity.
Defined.

(** * Further properties *)

(** ** The address ranges of the two chips *)

Lemma high_byte_below limit address :
  is_u16 address -> 0 <= limit ->
  (limit <= high_byte address <-> limit * 256 <= address).
Proof.
  intros Ha Hl. unfold high_byte.
  rewrite Z.shiftr_div_pow2 by lia. change (2 ^ 8) with 256.
  pose proof (Z.div_mod address 256 ltac:(lia)) as Hdm.
  pose proof (Z.mod_pos_bound address 256 ltac:(lia)) as Hm.
  split; intros Hc; nia.
Qed.

Lemma mask_f8 hi : is_u8 hi -> (Z.land hi 0xf8 <> 0 <-> 8 <= hi).
Proof.
  intros Hh.
  assert (Hc : eqb (negb (Z.land hi 0xf8 =? 0)) (8 <=? hi) = true)
    by (revert hi Hh; apply check_u8; vm_compute; reflexivity).
  apply eqb_prop in Hc.
  destruct (Z.eqb_spec (Z.land hi 0xf8) 0) as [E|E];
    destruct (Z.leb_spec 8 hi); simpl in Hc; try discriminate;
    split; intros; try lia; congruence.
Qed.

Lemma mask_fe hi : is_u8 hi -> (Z.land hi 0xfe <> 0 <-> 2 <= hi).
Proof.
  intros Hh.
  assert (Hc : eqb (negb (Z.land hi 0xfe =? 0)) (2 <=? hi) = true)
    by (revert hi Hh; apply check_u8; vm_compute; reflexivity).
  apply eqb_prop in Hc.
  destruct (Z.eqb_spec (Z.land hi 0xfe) 0) as [E|E];
    destruct (Z.leb_spec 2 hi); simpl in Hc; try discriminate;
    split; intros; try lia; congruence.
Qed.

Lemma begin_refuses {W} `{TwoWire W} A0 A1 SIZE (m : Machine W) address :
  is_u16 address ->
  (out_of_bounds (this (snd (begin A0 A1 SIZE m))) address
   <-> first_refused SIZE <= address).
Proof.
  intros Ha. rewrite begin_eq. unfold out_of_bounds, capacity_mask.
  cbn [snd this STORAGE_ARRAY_SIZE]. unfold first_refused.
  pose proof (high_byte_u8 address Ha) as Hh.
  destruct (SIZE =? 4).
  - change (to_u8 (to_i8 0xfe)) with 0xfe.
    rewrite mask_fe by exact Hh.
    apply (high_byte_below 2 address Ha). lia.
  - change (to_u8 (to_i8 0xf8)) with 0xf8.
    rewrite mask_f8 by exact Hh.
    apply (high_byte_below 8 address Ha). lia.
Qed.

(** X1.  After [begin], the bounds tests refuse exactly the offsets the
    source documents as invalid: from 0x0200 up for density 4, from
    0x0800 up for density 16 (and for any other density).  A refused
    offset makes the four data operations return at once. *)
Theorem documented_ranges :
  forall (W : Type) (T : TwoWire W) (A0 A1 SIZE : Z) (m : Machine W)
         (address value : Z) (values : list Z) (size : Z),
    is_u16 address ->
    let m' := snd (begin A0 A1 SIZE m) in
    (first_refused SIZE <= address
       <-> Z.land (high_byte address) (capacity_mask (this m')) <> 0) /\
    (first_refused SIZE <= address ->
       write address value m' = (OutOfBounds, m') /\
       read address m' = (0, m') /\
       write_array address values size m' = (OutOfBounds, m') /\
       read_array address values size m' = (Some OutOfBounds, values, m')).
Proof.
  intros W T A0 A1 SIZE m address value values size Ha m'.
  pose proof (begin_refuses A0 A1 SIZE m address Ha) as Hr.
  fold m' in Hr. split.
  - symmetry. exact Hr.
  - intros Hc. apply Hr in Hc. repeat split.
    + apply write_rejects; assumption.
    + apply read_rejects; assumption.
    + apply write_array_rejects; assumption.
    + apply read_array_rejects; assumption.
Qed.

Lemma documented_ranges_witness :
  let m' := snd (begin 0 0 4 (boot (Sim.blank 0 512))) in
  write 0x0200 1 m' = (OutOfBounds, m') /\
  read 0x0200 m' = (0, m') /\
  write_array 0x0200 [1; 2] 2 m' = (OutOfBounds, m') /\
  read_array 0x0200 [1; 2] 2 m' = (Some OutOfBounds, [1; 2], m').
Proof.
  apply (documented_ranges _ _ 0 0 4 (boot (Sim.blank 0 512))
           0x0200 1 [1; 2] 2).
  - unfold is_u16. lia.
  - vm_compute. discriminate.
Defined.

(** ** What each data operation puts on the bus *)

Section Traffic.

Context {W : Type} `{TwoWire W}.

Lemma write_array_accepts_eq address values size (m : Machine W) :
  is_u16 address -> in_bounds (this m) address ->
  let w1 := tw_write_buf values size
              (fold_left (fun w b => tw_write b w)
                 [a8 (set_a16 address) 1; a8 (set_a16 address) 0]
                 (tw_beginTransmission (SRAM_REGISTER (this m)) (wire m))) in
  write_array address values size m
  = (fst (tw_endTransmission w1), on m (snd (tw_endTransmission w1))).
Proof.
  intros Ha Hin. unfold write_array.
  unfold bind at 1. unfold get_this.
  rewrite bounds_test_i8 by exact Ha.
  unfold in_bounds in Hin. rewrite Hin. simpl.
  unfold on. run. reflexivity.
Qed.

Lemma read_array_accepts_eq address values size (m : Machine W) :
  is_u16 address -> in_bounds (this m) address ->
  let w1 := tw_requestFrom (SRAM_REGISTER (this m)) size
              (snd (wire_send (SRAM_REGISTER (this m))
                      [a8 (set_a16 address) 1; a8 (set_a16 address) 0]
                      (wire m))) in
  let r := read_array_loop (Z.to_nat size) 0 values (on m w1) in
  read_array address values size m
  = (None, fst r,
     on (snd r) (snd (tw_endTransmission (wire (snd r))))).
Proof.
  intros Ha Hin. unfold read_array.
  unfold bind at 1. unfold get_this.
  rewrite bounds_test_u16 by exact Ha.
  unfold in_bounds in Hin. rewrite Hin. cbv zeta.
  change (negb (0 =? 0)) with false. cbv iota.
  unfold wire_send, on.
  unfold bind, ret, Wire_beginTransmission, Wire_write,
    Wire_endTransmission, Wire_requestFrom, on_wire, from_wire.
  cbn [fold_left this wire fst snd].
  destruct (tw_endTransmission _) as [s1 w1]. cbn [this wire fst snd].
  destruct (read_array_loop _ _ _ _) as [vs m2]. cbn [this wire fst snd].
  destruct (tw_endTransmission _) as [s2 w2]. reflexivity.
Qed.

End Traffic.

Section RecordedTraffic.

Context {W : Type} `{TwoWire W}.

Import Recorder.

Lemma recorded_read_array_loop n : forall i values
    (m : Machine (Recorder.Wire W)),
  calls (wire (snd (read_array_loop n i values m)))
  = calls (wire m) ++ repeat read_call n.
Proof.
  induction n as [|n IH]; intros i values m.
  - simpl. rewrite app_nil_r. reflexivity.
  - cbn [read_array_loop repeat]. unfold bind at 1.
    unfold Wire_read, from_wire.
    cbn [tw_read Recorder.wire_TwoWire]. unfold note_result.
    destruct (tw_read (inner (wire m))) as [r w']. rewrite IH.
    cbn [wire calls]. rewrite <- app_assoc. reflexivity.
Qed.

End RecordedTraffic.

(** X2.  An accepted single-byte [write] is one transaction to the data
    address carrying the high byte of the offset, its low byte and the
    value, in that order; what it returns is the status that
    transaction ended with. *)
Theorem write_traffic :
  forall (W : Type) (T : TwoWire W) (m : Machine (Recorder.Wire W))
         (address value : Z),
    is_u16 address ->
    Z.land (high_byte address) (capacity_mask (this m)) = 0 ->
    Recorder.calls (wire (snd (write address value m)))
    = Recorder.calls (wire m)
        ++ Recorder.send_calls (SRAM_REGISTER (this m))
             [high_byte address; address mod 256; value] /\
    fst (write address value m)
    = fst (wire_send (SRAM_REGISTER (this m))
             [high_byte address; address mod 256; value] (wire m)).
Proof.
  intros W T m address value Ha Hin.
  rewrite (write_accepts address value m Ha Hin).
  rewrite a8_high, a8_low by exact Ha. cbn [fst snd wire on].
  split; [apply recorded_send | reflexivity].
Qed.

Lemma write_traffic_witness :
  Recorder.calls (wire (snd (write 0x0123 0x2a recorded_bench)))
  = Recorder.calls (wire recorded_bench)
      ++ Recorder.send_calls 0x50 [0x01; 0x23; 0x2a] /\
  fst (write 0x0123 0x2a recorded_bench) = Ok.
Proof.
  assert (Ha : is_u16 0x0123) by (unfold is_u16; lia).
  exact (write_traffic _ _ recorded_bench 0x0123 0x2a Ha eq_refl).
Defined.

(** X3.  An accepted single-byte [read] first sends the two offset
    bytes to the data address in a transaction of their own, then
    requests one byte, reads it and ends a transmission once more.
    Whatever the transport delivers, the result is a byte. *)
Theorem read_traffic :
  forall (W : Type) (T : TwoWire W) (m : Machine (Recorder.Wire W))
         (address : Z),
    is_u16 address ->
    Z.land (high_byte address) (capacity_mask (this m)) = 0 ->
    Recorder.calls (wire (snd (read address m)))
    = Recorder.calls (wire m)
        ++ Recorder.send_calls (SRAM_REGISTER (this m))
             [high_byte address; address mod 256]
        ++ [Recorder.requestFrom_call (SRAM_REGISTER (this m)) 1;
            Recorder.read_call; Recorder.endTransmission_call] /\
    is_u8 (fst (read address m)).
Proof.
  intros W T m address Ha Hin.
  rewrite (read_accepts address m Ha Hin). cbv zeta.
  rewrite a8_high, a8_low by exact Ha. cbn [fst snd wire on].
  split.
  - rewrite recorded_fetch, recorded_send, <- app_assoc. reflexivity.
  - unfold wire_fetch. destruct (tw_read _). cbn [fst].
    apply to_u8_range.
Qed.

Lemma read_traffic_witness :
  Recorder.calls (wire (snd (read 0x0123 recorded_bench)))
  = Recorder.calls (wire recorded_bench)
      ++ Recorder.send_calls 0x50 [0x01; 0x23]
      ++ [Recorder.requestFrom_call 0x50 1;
          Recorder.read_call; Recorder.endTransmission_call] /\
  is_u8 (fst (read 0x0123 recorded_bench)).
Proof.
  apply (read_traffic _ _ recorded_bench 0x0123).
  - unfold is_u16. lia.
  - reflexivity.
Defined.

(** X4.  An accepted block [write] is one transaction: the two offset
    bytes, then the array handed to the transport in a single call with
    the length it was given.  An accepted block [read] sends the offset,
    requests [size] bytes and then calls [read] exactly [size] times,
    without asking how many bytes arrived. *)
Theorem block_traffic :
  forall (W : Type) (T : TwoWire W) (m : Machine (Recorder.Wire W))
         (address : Z) (values : list Z) (size : Z),
    is_u16 address ->
    Z.land (high_byte address) (capacity_mask (this m)) = 0 ->
    Recorder.calls (wire (snd (write_array address values size m)))
    = Recorder.calls (wire m)
        ++ [Recorder.beginTransmission_call (SRAM_REGISTER (this m));
            Recorder.write_call (high_byte address);
            Recorder.write_call (address mod 256);
            Recorder.write_buf_call values size;
            Recorder.endTransmission_call] /\
    Recorder.calls (wire (snd (read_array address values size m)))
    = Recorder.calls (wire m)
        ++ Recorder.send_calls (SRAM_REGISTER (this m))
             [high_byte address; address mod 256]
        ++ [Recorder.requestFrom_call (SRAM_REGISTER (this m)) size]
        ++ repeat Recorder.read_call (Z.to_nat size)
        ++ [Recorder.endTransmission_call].
Proof.
  intros W T m address values size Ha Hin. split.
  - rewrite (write_array_accepts_eq address values size m Ha Hin).
    cbv zeta. rewrite a8_high, a8_low by exact Ha.
    cbn [fst snd wire on fold_left tw_endTransmission tw_write_buf
         tw_write tw_beginTransmission Recorder.wire_TwoWire].
    unfold Recorder.note_result, Recorder.note.
    cbn [Recorder.inner Recorder.calls].
    destruct (tw_endTransmission _) as [s w']. cbn [snd Recorder.calls].
    rewrite <- !app_assoc. reflexivity.
  - rewrite (read_array_accepts_eq address values size m Ha Hin).
    cbv zeta. rewrite a8_high, a8_low by exact Ha.
    cbn [fst snd wire on].
    cbn [tw_endTransmission Recorder.wire_TwoWire].
    unfold Recorder.note_result at 1.
    destruct (tw_endTransmission _) as [s w']. cbn [snd Recorder.calls].
    rewrite recorded_read_array_loop. cbn [wire on].
    cbn [tw_requestFrom Recorder.wire_TwoWire]. unfold Recorder.note.
    cbn [Recorder.calls]. rewrite recorded_send.
    rewrite <- !app_assoc. reflexivity.
Qed.

Lemma block_traffic_witness :
  Recorder.calls (wire (snd (write_array 0x07ff [1; 2; 3] 3 recorded_bench)))
  = Recorder.calls (wire recorded_bench)
      ++ [Recorder.beginTransmission_call 0x50;
          Recorder.write_call 0x07; Recorder.write_call 0xff;
          Recorder.write_buf_call [1; 2; 3] 3;
          Recorder.endTransmission_call] /\
  Recorder.calls (wire (snd (read_array 0x07ff [0; 0; 0] 3 recorded_bench)))
  = Recorder.calls (wire recorded_bench)
      ++ Recorder.send_calls 0x50 [0x07; 0xff]
      ++ [Recorder.requestFrom_call 0x50 3]
      ++ repeat Recorder.read_call 3
      ++ [Recorder.endTransmission_call].
Proof.
  split.
  - apply (block_traffic _ _ recorded_bench 0x07ff [1; 2; 3] 3).
    + unfold is_u16. lia.
    + reflexivity.
  - apply (block_traffic _ _ recorded_bench 0x07ff [0; 0; 0] 3).
    + unfold is_u16. lia.
    + reflexivity.
Defined.

(** ** The getters *)

Section Getters.

Context {W : Type} `{TwoWire W}.

Lemma getAutoStore_eq (m : Machine W) :
  getAutoStore m =
  (negb (Z.land (fst (readControlRegister m)) 0x02 =? 0),
   snd (readControlRegister m)).
Proof.
  unfold getAutoStore, bind, ret.
  destruct (readControlRegister m). reflexivity.
Qed.

Lemma getEventBit_eq (m : Machine W) :
  getEventBit m =
  (negb (Z.land (fst (readControlRegister m)) 0x01 =? 0),
   snd (readControlRegister m)).
Proof.
  unfold getEventBit, bind, ret.
  destruct (readControlRegister m). reflexivity.
Qed.

End Getters.

Lemma level_range b :
  is_u8 b -> 0 <= to_u8 (Z.shiftr (Z.land b 0x1c) 2) <= 7.
Proof.
  intros Hb.
  assert (Hc : (0 <=? to_u8 (Z.shiftr (Z.land b 0x1c) 2))
               && (to_u8 (Z.shiftr (Z.land b 0x1c) 2) <=? 7) = true)
    by (revert b Hb; apply check_u8; vm_compute; reflexivity).
  apply andb_true_iff in Hc. destruct Hc as [Hlo Hhi].
  apply Z.leb_le in Hlo, Hhi. lia.
Qed.

(** X5.  The four getters only fetch the control register: each makes
    the six calls of [readControlRegister] and nothing else, so none of
    them writes to the chip.  Whatever byte arrives, [getWriteProtect]
    returns a level between 0 and 7. *)
Theorem getters_only_fetch :
  forall (W : Type) (T : TwoWire W) (m : Machine (Recorder.Wire W)),
    let fetched (m' : Machine (Recorder.Wire W)) :=
      Recorder.calls (wire m')
      = Recorder.calls (wire m)
          ++ Recorder.fetch_calls (CONTROL_REGISTER (this m)) in
    fetched (snd (getAutoStore m)) /\
    fetched (snd (getWriteProtect m)) /\
    fetched (snd (getEventBit m)) /\
    fetched (snd (getMatch m)) /\
    0 <= fst (getWriteProtect m) <= 7.
Proof.
  intros W T m fetched. subst fetched. cbv beta.
  rewrite getAutoStore_eq, getWriteProtect_eq, getEventBit_eq, getMatch_eq.
  cbn [fst snd].
  repeat split; try apply recorded_readControlRegister;
    apply level_range, readControlRegister_u8.
Qed.

(** ** The addresses the driver names on the bus *)

Section Preserves.

Context {W : Type} `{TwoWire W}.

Variable I : Machine W -> Prop.

Lemma preserves_ret {A} (a : A) : preserves I (ret a).
Proof. intros m Hm. exact Hm. Qed.

Lemma preserves_bind {A B} (c : M W A) (k : A -> M W B) :
  preserves I c -> (forall a, preserves I (k a)) -> preserves I (bind c k).
Proof.
  intros Hc Hk m Hm. unfold bind.
  specialize (Hc m Hm). destruct (c m) as [a m']. simpl in Hc.
  apply Hk, Hc.
Qed.

Lemma preserves_if {A} (b : bool) (c1 c2 : M W A) :
  preserves I c1 -> preserves I c2 -> preserves I (if b then c1 else c2).
Proof. destruct b; auto. Qed.

End Preserves.

Section Discipline.

Context {W : Type} `{TwoWire W}.

Import Recorder.

Variable h : SerialRAM.

(** The object is [h] and every address recorded so far is one of its
    two. *)
Local Abbreviation disciplined :=
  (fun m : Machine (Recorder.Wire W) =>
     this m = h /\ names_only h (calls (wire m))).

Lemma names_only_snoc cs c :
  names_only h cs ->
  match c with
  | beginTransmission_call a | requestFrom_call a _ =>
      a = SRAM_REGISTER h \/ a = CONTROL_REGISTER h
  | _ => True
  end ->
  names_only h (cs ++ [c]).
Proof.
  intros Hcs Hc. unfold names_only. apply Forall_app. split.
  - exact Hcs.
  - constructor; [exact Hc | constructor].
Qed.

Lemma disciplined_with_this {A} (k : SerialRAM -> M (Recorder.Wire W) A) :
  preserves disciplined (k h) -> preserves disciplined (bind get_this k).
Proof.
  intros Hk m Hm. unfold bind, get_this.
  destruct Hm as [Hthis Hcs]. rewrite Hthis. apply Hk. split; assumption.
Qed.

Lemma disciplined_beginTransmission a :
  a = SRAM_REGISTER h \/ a = CONTROL_REGISTER h ->
  preserves disciplined (Wire_beginTransmission a).
Proof.
  intros Ha m [Hthis Hcs]. split; [exact Hthis |].
  apply names_only_snoc; assumption.
Qed.

Lemma disciplined_requestFrom a n :
  a = SRAM_REGISTER h \/ a = CONTROL_REGISTER h ->
  preserves disciplined (Wire_requestFrom a n).
Proof.
  intros Ha m [Hthis Hcs]. split; [exact Hthis |].
  apply names_only_snoc; assumption.
Qed.

Lemma disciplined_write b : preserves disciplined (Wire_write b).
Proof.
  intros m [Hthis Hcs]. split; [exact Hthis |].
  apply names_only_snoc; [assumption | exact Logic.I].
Qed.

Lemma disciplined_write_buf values size :
  preserves disciplined (Wire_write_buf values size).
Proof.
  intros m [Hthis Hcs]. split; [exact Hthis |].
  apply names_only_snoc; [assumption | exact Logic.I].
Qed.

Lemma disciplined_endTransmission :
  preserves disciplined Wire_endTransmission.
Proof.
  intros m [Hthis Hcs]. unfold Wire_endTransmission, from_wire.
  cbn [tw_endTransmission Recorder.wire_TwoWire]. unfold note_result.
  destruct (tw_endTransmission _) as [r w']. cbn [snd this wire calls].
  split; [exact Hthis |].
  apply names_only_snoc; [assumption | exact Logic.I].
Qed.

Lemma disciplined_read : preserves disciplined Wire_read.
Proof.
  intros m [Hthis Hcs]. unfold Wire_read, from_wire.
  cbn [tw_read Recorder.wire_TwoWire]. unfold note_result.
  destruct (tw_read _) as [r w']. cbn [snd this wire calls].
  split; [exact Hthis |].
  apply names_only_snoc; [assumption | exact Logic.I].
Qed.

Ltac discipline :=
  repeat first
    [ apply preserves_ret
    | apply disciplined_with_this
    | apply disciplined_write | apply disciplined_write_buf
    | apply disciplined_endTransmission | apply disciplined_read
    | apply disciplined_beginTransmission; [ (left + right); reflexivity ]
    | apply disciplined_requestFrom; [ (left + right); reflexivity ]
    | apply preserves_if
    | apply preserves_bind; [ | intro ] ].

Lemma disciplined_readControlRegister :
  preserves disciplined readControlRegister.
Proof. unfold readControlRegister. discipline. Qed.

Lemma disciplined_read_array_loop n : forall i values,
  preserves disciplined (read_array_loop n i values).
Proof.
  induction n as [|n IH]; intros i values; cbn [read_array_loop].
  - apply preserves_ret.
  - apply preserves_bind; [apply disciplined_read | intro; apply IH].
Qed.

Lemma disciplined_invoke c : preserves disciplined (invoke c).
Proof.
  destruct c; cbn [invoke];
    unfold write, read, setAutoStore, getAutoStore, store, recall,
      setWriteProtect, getWriteProtect, setEventBit, getEventBit,
      getMatch, write_array, read_array;
    repeat first
      [ apply disciplined_readControlRegister
      | apply disciplined_read_array_loop
      | progress discipline ].
Qed.

Lemma disciplined_invoke_all cs : forall m,
  disciplined m -> disciplined (invoke_all cs m).
Proof.
  induction cs as [|c cs IH]; intros m Hm.
  - exact Hm.
  - change (invoke_all (c :: cs) m) with (invoke_all cs (snd (invoke c m))).
    apply IH, disciplined_invoke, Hm.
Qed.

End Discipline.

(** X6.  Whatever methods are called after [begin], in whatever order
    and with whatever arguments, every [beginTransmission] and
    [requestFrom] the driver issues names the object's data address or
    its control address: it never addresses another device. *)
Theorem only_two_addresses :
  forall (W : Type) (T : TwoWire W) (m : Machine (Recorder.Wire W))
         (cs : list Invocation),
    names_only (this m) (Recorder.calls (wire m)) ->
    names_only (this m) (Recorder.calls (wire (invoke_all cs m))).
Proof.
  intros W T m cs Hm.
  apply (disciplined_invoke_all (this m) cs m). split; [reflexivity | exact Hm].
Qed.

Lemma only_two_addresses_witness :
  names_only (this recorded_bench)
    (Recorder.calls
       (wire (invoke_all [call_write 0x0010 7; call_setWriteProtect 3;
                          call_read_array 0x0010 [0; 0] 2; call_store]
                         recorded_bench))).
Proof.
  apply (only_two_addresses _ _ recorded_bench).
  repeat constructor.
Defined.

(** ** The control register on the simulated chip *)

Lemma check_u8_u8 (f : Z -> Z -> bool) :
  forallb (fun a => forallb (f a) all_u8) all_u8 = true ->
  forall a b, is_u8 a -> is_u8 b -> f a b = true.
Proof.
  intros Hall a b Ha Hb.
  pose proof (check_u8 (fun a => forallb (f a) all_u8) Hall a Ha) as Hrow.
  exact (check_u8 (f a) Hrow b Hb).
Qed.

Lemma status_written_low s new :
  to_u8 (status_written s new) = status_written (to_u8 s) new.
Proof.
  unfold status_written.
  replace (Z.land s 0x80) with (Z.land (to_u8 s) 0x80)
    by (rewrite !(Z.land_comm _ 0x80); apply land_u8_low;
        unfold is_u8; lia).
  generalize (to_u8 s) (to_u8 new) (to_u8_range s) (to_u8_range new).
  intros a b Ha Hb. apply Z.eqb_eq. revert a b Ha Hb.
  apply (check_u8_u8
           (fun a b => to_u8 (Z.lor (Z.land a 0x80) (Z.land b 0x1f))
                       =? Z.lor (Z.land a 0x80) (Z.land b 0x1f))).
  vm_compute. reflexivity.
Qed.

(** A setter on an attached chip: the object is unchanged, the chip
    stays attached, and of the chip only STATUS changes. *)
Lemma sim_put_back (f : Z -> Z) (m : Machine Sim.Wire) :
  Sim.attached m ->
  let s := Sim.status (Sim.chip (wire m)) in
  let m' := put_back (f (fst (readControlRegister m)))
                     (snd (readControlRegister m)) in
  Sim.attached m' /\
  Sim.chip (wire m')
  = Sim.with_status (status_written s (f (to_u8 s))) (Sim.chip (wire m)).
Proof.
  intros Hm s m'. subst s m'.
  destruct (sim_readControlRegister m Hm) as [Hold [Hthis Hchip]].
  destruct (attached_addresses m Hm) as [_ [Hc Hne]].
  set (m1 := snd (readControlRegister m)) in *.
  unfold put_back. rewrite Hthis.
  rewrite sim_send_control by (rewrite Hchip; assumption).
  cbn [snd]. rewrite Hchip, Hold.
  cbn [on wire this Sim.chip map]. change (to_u8 0) with 0.
  cbn [Sim.control_write]. split; [| reflexivity].
  destruct Hm as [Hsel [Hs Hcr]]. unfold Sim.attached.
  cbn [on this wire Sim.chip Sim.with_status Sim.pins].
  rewrite Hthis. repeat split; assumption.
Qed.

Lemma sim_control_byte_after (f : Z -> Z) (m : Machine Sim.Wire) :
  Sim.attached m ->
  let b := fst (readControlRegister m) in
  fst (readControlRegister
         (put_back (f b) (snd (readControlRegister m))))
  = status_written b (f b).
Proof.
  intros Hm b. subst b.
  destruct (sim_put_back f m Hm) as [Hm' Hchip].
  destruct (sim_readControlRegister m Hm) as [Hold _].
  destruct (sim_readControlRegister _ Hm') as [Hnew _].
  rewrite Hnew, Hchip, Hold.
  cbn [Sim.status Sim.with_status].
  apply status_written_low.
Qed.

(** The getters, as functions of the byte fetched. *)
Lemma getters_of {W} `{TwoWire W} (m : Machine W) :
  let b := fst (readControlRegister m) in
  fst (getAutoStore m) = autoStore_of b /\
  fst (getEventBit m) = eventBit_of b /\
  fst (getWriteProtect m) = writeProtect_of b /\
  fst (getMatch m) = match_of b.
Proof.
  cbv zeta.
  rewrite getAutoStore_eq, getEventBit_eq, getWriteProtect_eq, getMatch_eq.
  repeat split.
Qed.

Lemma autoStore_byte_readback value b :
  is_u8 b ->
  let b' := status_written b (autoStore_byte value b) in
  autoStore_of b' = value /\ eventBit_of b' = eventBit_of b /\
  writeProtect_of b' = writeProtect_of b /\ match_of b' = match_of b.
Proof.
  intros Hb. cbv zeta.
  assert (Hc :
    (let b' := status_written b (autoStore_byte value b) in
     eqb (autoStore_of b') value && eqb (eventBit_of b') (eventBit_of b)
     && (writeProtect_of b' =? writeProtect_of b)
     && eqb (match_of b') (match_of b)) = true)
    by (revert b Hb; apply check_u8; destruct value; vm_compute; reflexivity).
  cbv zeta in Hc. rewrite !andb_true_iff in Hc.
  destruct Hc as [[[H1 H2] H3] H4].
  apply eqb_prop in H1, H2, H4. apply Z.eqb_eq in H3. auto.
Qed.

Lemma eventBit_byte_readback value b :
  is_u8 b ->
  let b' := status_written b (eventBit_byte value b) in
  eventBit_of b' = value /\ autoStore_of b' = autoStore_of b /\
  writeProtect_of b' = writeProtect_of b /\ match_of b' = match_of b.
Proof.
  intros Hb. cbv zeta.
  assert (Hc :
    (let b' := status_written b (eventBit_byte value b) in
     eqb (eventBit_of b') value && eqb (autoStore_of b') (autoStore_of b)
     && (writeProtect_of b' =? writeProtect_of b)
     && eqb (match_of b') (match_of b)) = true)
    by (revert b Hb; apply check_u8; destruct value; vm_compute; reflexivity).
  cbv zeta in Hc. rewrite !andb_true_iff in Hc.
  destruct Hc as [[[H1 H2] H3] H4].
  apply eqb_prop in H1, H2, H4. apply Z.eqb_eq in H3. auto.
Qed.

Lemma writeProtect_byte_readback prot b :
  0 <= prot <= 7 -> is_u8 b ->
  let b' := status_written b (writeProtect_byte prot b) in
  writeProtect_of b' = prot /\ autoStore_of b' = autoStore_of b /\
  eventBit_of b' = eventBit_of b /\ match_of b' = match_of b.
Proof.
  intros Hp Hb. cbv zeta.
  assert (Hc :
    (let b' := status_written b (writeProtect_byte prot b) in
     (writeProtect_of b' =? prot) && eqb (autoStore_of b') (autoStore_of b)
     && eqb (eventBit_of b') (eventBit_of b)
     && eqb (match_of b') (match_of b)) = true).
  { revert b Hb. apply check_u8.
    apply level_cases in Hp. simpl in Hp.
    repeat (destruct Hp as [<- | Hp]; [vm_compute; reflexivity |]).
    contradiction. }
  cbv zeta in Hc. rewrite !andb_true_iff in Hc.
  destruct Hc as [[[H1 H2] H3] H4].
  apply eqb_prop in H2, H3, H4. apply Z.eqb_eq in H1. auto.
Qed.

(** X7.  On the simulated chip, [getAutoStore] after [setAutoStore v]
    returns [v], and the event bit, the write-protect level and the
    match status read as they did before. *)
Theorem autoStore_round_trip :
  forall (m : Machine Sim.Wire) (value : bool),
    Sim.attached m ->
    let m' := snd (setAutoStore value m) in
    fst (getAutoStore m') = value /\
    fst (getEventBit m') = fst (getEventBit m) /\
    fst (getWriteProtect m') = fst (getWriteProtect m) /\
    fst (getMatch m') = fst (getMatch m).
Proof.
  intros m value Hm m'. subst m'.
  rewrite setAutoStore_eq. cbv zeta. cbn [snd].
  destruct (getters_of m) as [_ [-> [-> ->]]].
  destruct (getters_of
              (put_back (autoStore_byte value (fst (readControlRegister m)))
                        (snd (readControlRegister m))))
    as [Ha [He [Hw Hx]]].
  fold (autoStore_byte value (fst (readControlRegister m))).
  rewrite Ha, He, Hw, Hx.
  rewrite (sim_control_byte_after (autoStore_byte value) m Hm).
  cbv zeta.
  apply (autoStore_byte_readback value), readControlRegister_u8.
Qed.

Lemma autoStore_round_trip_witness :
  let m' := snd (setAutoStore true bench) in
  fst (getAutoStore m') = true /\
  fst (getEventBit m') = fst (getEventBit bench) /\
  fst (getWriteProtect m') = fst (getWriteProtect bench) /\
  fst (getMatch m') = fst (getMatch bench).
Proof.
  apply (autoStore_round_trip bench true). exact bench_attached.
Defined.

(** X8.  On the simulated chip, [getEventBit] after [setEventBit v]
    returns [v], and the auto-store flag, the write-protect level and
    the match status read as they did before. *)
Theorem eventBit_round_trip :
  forall (m : Machine Sim.Wire) (value : bool),
    Sim.attached m ->
    let m' := snd (setEventBit value m) in
    fst (getEventBit m') = value /\
    fst (getAutoStore m') = fst (getAutoStore m) /\
    fst (getWriteProtect m') = fst (getWriteProtect m) /\
    fst (getMatch m') = fst (getMatch m).
Proof.
  intros m value Hm m'. subst m'.
  rewrite setEventBit_eq. cbv zeta. cbn [snd].
  destruct (getters_of m) as [-> [_ [-> ->]]].
  destruct (getters_of
              (put_back (eventBit_byte value (fst (readControlRegister m)))
                        (snd (readControlRegister m))))
    as [Ha [He [Hw Hx]]].
  fold (eventBit_byte value (fst (readControlRegister m))).
  rewrite Ha, He, Hw, Hx.
  rewrite (sim_control_byte_after (eventBit_byte value) m Hm).
  cbv zeta.
  apply (eventBit_byte_readback value), readControlRegister_u8.
Qed.

Lemma eventBit_round_trip_witness :
  let m' := snd (setEventBit true bench) in
  fst (getEventBit m') = true /\
  fst (getAutoStore m') = fst (getAutoStore bench) /\
  fst (getWriteProtect m') = fst (getWriteProtect bench) /\
  fst (getMatch m') = fst (getMatch bench).
Proof.
  apply (eventBit_round_trip bench true). exact bench_attached.
Defined.

(** X9.  On the simulated chip, [setWriteProtect] with a level 0..7
    leaves the auto-store flag, the event bit and the match status as
    they were. *)
Theorem writeProtect_leaves_flags :
  forall (m : Machine Sim.Wire) (prot : Z),
    Sim.attached m -> 0 <= prot <= 7 ->
    let m' := snd (setWriteProtect prot m) in
    fst (getAutoStore m') = fst (getAutoStore m) /\
    fst (getEventBit m') = fst (getEventBit m) /\
    fst (getMatch m') = fst (getMatch m).
Proof.
  intros m prot Hm Hp m'. subst m'.
  rewrite (setWriteProtect_eq prot m (level_fits prot Hp)).
  cbv zeta. cbn [snd].
  destruct (getters_of m) as [-> [-> [_ ->]]].
  destruct (getters_of
              (put_back (writeProtect_byte prot (fst (readControlRegister m)))
                        (snd (readControlRegister m))))
    as [Ha [He [_ Hx]]].
  fold (writeProtect_byte prot (fst (readControlRegister m))).
  rewrite Ha, He, Hx.
  rewrite (sim_control_byte_after (writeProtect_byte prot) m Hm).
  cbv zeta.
  destruct (writeProtect_byte_readback prot (fst (readControlRegister m)) Hp
              (readControlRegister_u8 m)) as [_ [H1 [H2 H3]]].
  auto.
Qed.

Lemma writeProtect_leaves_flags_witness :
  let m' := snd (setWriteProtect 6 (snd (setAutoStore true bench))) in
  fst (getAutoStore m') = fst (getAutoStore (snd (setAutoStore true bench))) /\
  fst (getEventBit m') = fst (getEventBit (snd (setAutoStore true bench))) /\
  fst (getMatch m') = fst (getMatch (snd (setAutoStore true bench))).
Proof.
  apply (writeProtect_leaves_flags (snd (setAutoStore true bench)) 6).
  - vm_compute. repeat split; auto.
  - lia.
Defined.

(** ** The array on the simulated chip *)

Lemma address_bytes address :
  is_u16 address ->
  to_u8 (a8 (set_a16 address) 1) * 256 + to_u8 (a8 (set_a16 address) 0)
  = address.
Proof.
  intros Ha. rewrite a8_high, a8_low by exact Ha.
  rewrite (to_u8_small (high_byte address)) by (apply high_byte_u8, Ha).
  rewrite (to_u8_small (address mod 256)) by apply to_u8_range.
  unfold high_byte. rewrite Z.shiftr_div_pow2 by lia.
  change (2 ^ 8) with 256.
  pose proof (Z.div_mod address 256 ltac:(lia)). lia.
Qed.

(** An accepted [write] on an attached chip. *)
Lemma sim_write address value (m : Machine Sim.Wire) :
  Sim.attached m -> is_u16 address -> in_bounds (this m) address ->
  let c := Sim.chip (wire m) in
  let m' := snd (write address value m) in
  fst (write address value m) = 0 /\
  this m' = this m /\
  Sim.attached m' /\
  Sim.chip (wire m')
  = Sim.poke (to_u8 value)
      (Sim.with_pointer (address mod Sim.cells c) c).
Proof.
  intros Hm Ha Hin c m'. subst c m'.
  destruct (attached_addresses m Hm) as [Hd _].
  rewrite (write_accepts address value m Ha Hin).
  rewrite (sim_send_data _ _ _ Hd). cbn [fst snd on this wire Sim.chip map].
  cbn [Sim.data_write fold_left]. rewrite (address_bytes address Ha).
  split; [reflexivity |]. split; [reflexivity |]. split; [| reflexivity].
  destruct Hm as [Hsel [Hs Hcr]]. unfold Sim.attached.
  cbn [this wire Sim.chip Sim.poke Sim.with_pointer Sim.pins].
  repeat split; assumption.
Qed.

(** An accepted [read] on an attached chip. *)
Lemma sim_read address (m : Machine Sim.Wire) :
  Sim.attached m -> is_u16 address -> in_bounds (this m) address ->
  let c := Sim.chip (wire m) in
  fst (read address m)
  = to_u8 (Sim.peek (Sim.sram c) (address mod Sim.cells c)).
Proof.
  intros Hm Ha Hin c. subst c.
  destruct (attached_addresses m Hm) as [Hd _].
  rewrite (read_accepts address m Ha Hin). cbv zeta. cbn [fst].
  rewrite (sim_send_data _ _ _ Hd). cbn [snd].
  rewrite sim_fetch_data.
  - cbn [Sim.chip map Sim.data_write fold_left].
    rewrite (address_bytes address Ha). reflexivity.
  - cbn [Sim.chip]. rewrite sim_pins_data_write. exact Hd.
  - reflexivity.
  - reflexivity.
Qed.

(** [store] and [recall] on an attached chip. *)
Lemma sim_store (m : Machine Sim.Wire) :
  Sim.attached m ->
  let c := Sim.chip (wire m) in
  let m' := snd (store m) in
  this m' = this m /\ Sim.attached m' /\
  Sim.chip (wire m')
  = {| Sim.pins := Sim.pins c; Sim.cells := Sim.cells c;
       Sim.sram := Sim.sram c; Sim.eeprom := Sim.sram c;
       Sim.status := Z.land (Sim.status c) 0x7f;
       Sim.pointer := Sim.pointer c |}.
Proof.
  intros Hm c m'. subst c m'.
  destruct (attached_addresses m Hm) as [_ [Hc Hne]].
  rewrite store_eq. cbn [snd].
  rewrite (sim_send_control _ _ _ Hc Hne).
  cbn [snd on this wire Sim.chip map].
  change (to_u8 0x55) with 0x55. change (to_u8 0x33) with 0x33.
  cbn [Sim.control_write].
  split; [reflexivity |]. split; [| reflexivity].
  destruct Hm as [Hsel [Hs Hcr]]. unfold Sim.attached.
  cbn [this wire Sim.chip Sim.pins]. repeat split; assumption.
Qed.

Lemma sim_recall (m : Machine Sim.Wire) :
  Sim.attached m ->
  let c := Sim.chip (wire m) in
  let m' := snd (recall m) in
  this m' = this m /\ Sim.attached m' /\
  Sim.chip (wire m')
  = {| Sim.pins := Sim.pins c; Sim.cells := Sim.cells c;
       Sim.sram := Sim.eeprom c; Sim.eeprom := Sim.eeprom c;
       Sim.status := Z.land (Sim.status c) 0x7f;
       Sim.pointer := Sim.pointer c |}.
Proof.
  intros Hm c m'. subst c m'.
  destruct (attached_addresses m Hm) as [_ [Hc Hne]].
  rewrite recall_eq. cbn [snd].
  rewrite (sim_send_control _ _ _ Hc Hne).
  cbn [snd on this wire Sim.chip map].
  change (to_u8 0x55) with 0x55. change (to_u8 0xdd) with 0xdd.
  cbn [Sim.control_write].
  split; [reflexivity |]. split; [| reflexivity].
  destruct Hm as [Hsel [Hs Hcr]]. unfold Sim.attached.
  cbn [this wire Sim.chip Sim.pins]. repeat split; assumption.
Qed.

(** X10.  On the simulated chip a [write] changes one cell only: a
    [read] of an in-bounds offset that falls on another cell returns
    what it returned before the [write]. *)
Theorem write_leaves_other_cells :
  forall (m : Machine Sim.Wire) (a b value : Z),
    Sim.attached m ->
    is_u16 a -> is_u16 b ->
    Z.land (high_byte a) (capacity_mask (this m)) = 0 ->
    Z.land (high_byte b) (capacity_mask (this m)) = 0 ->
    a mod Sim.cells (Sim.chip (wire m))
      <> b mod Sim.cells (Sim.chip (wire m)) ->
    fst (read b (snd (write a value m))) = fst (read b m).
Proof.
  intros m a b value Hm Ha Hb Hina Hinb Hcells.
  destruct (sim_write a value m Hm Ha Hina) as [_ [Hthis [Hm' Hchip]]].
  rewrite (sim_read b m Hm Hb Hinb).
  rewrite sim_read; try assumption.
  - cbv zeta. rewrite Hchip.
    cbn [Sim.sram Sim.cells Sim.poke Sim.with_pointer Sim.pointer].
    unfold Sim.peek. rewrite lookup_insert_ne by exact Hcells.
    reflexivity.
  - unfold in_bounds. rewrite Hthis. exact Hinb.
Qed.

Lemma write_leaves_other_cells_witness :
  fst (read 0x0011 (snd (write 0x0010 0x2a (snd (write 0x0011 7 bench)))))
  = fst (read 0x0011 (snd (write 0x0011 7 bench))).
Proof.
  apply (write_leaves_other_cells (snd (write 0x0011 7 bench)) 0x0010 0x0011).
  - vm_compute. repeat split; auto.
  - unfold is_u16. lia.
  - unfold is_u16. lia.
  - reflexivity.
  - reflexivity.
  - vm_compute. discriminate.
Defined.

(** X11.  On the simulated chip [recall] undoes a [write] made since
    the last [store]: after [store], a [write] and [recall], every
    in-bounds [read] returns what it returned before the three
    calls. *)
Theorem recall_undoes_write :
  forall (m : Machine Sim.Wire) (a b value : Z),
    Sim.attached m ->
    is_u16 a -> is_u16 b ->
    Z.land (high_byte a) (capacity_mask (this m)) = 0 ->
    Z.land (high_byte b) (capacity_mask (this m)) = 0 ->
    fst (read b (snd (recall (snd (write a value (snd (store m)))))))
    = fst (read b m).
Proof.
  intros m a b value Hm Ha Hb Hina Hinb.
  destruct (sim_store m Hm) as [Ht1 [Hm1 Hc1]].
  assert (Hina1 : in_bounds (this (snd (store m))) a)
    by (unfold in_bounds; rewrite Ht1; exact Hina).
  destruct (sim_write a value _ Hm1 Ha Hina1) as [_ [Ht2 [Hm2 Hc2]]].
  destruct (sim_recall _ Hm2) as [Ht3 [Hm3 Hc3]].
  rewrite (sim_read b m Hm Hb Hinb).
  rewrite sim_read; try assumption.
  - cbv zeta. rewrite Hc3, Hc2, Hc1.
    cbn [Sim.sram Sim.eeprom Sim.cells Sim.poke Sim.with_pointer].
    reflexivity.
  - unfold in_bounds. rewrite Ht3, Ht2, Ht1. exact Hinb.
Qed.

Lemma recall_undoes_write_witness :
  fst (read 0x0010
         (snd (recall (snd (write 0x0010 0x55
                              (snd (store (snd (write 0x0010 0xaa bench)))))))))
  = fst (read 0x0010 (snd (write 0x0010 0xaa bench))).
Proof.
  apply (recall_undoes_write (snd (write 0x0010 0xaa bench))
           0x0010 0x0010 0x55).
  - vm_compute. repeat split; auto.
  - unfold is_u16. lia.
  - unfold is_u16. lia.
  - reflexivity.
  - reflexivity.
Defined.

(** X12.  On the simulated chip [getMatch] follows the array: it
    returns false after an accepted [write] and true after [store] and
    after [recall]. *)
Theorem match_follows_the_array :
  forall (m : Machine Sim.Wire) (address value : Z),
    Sim.attached m ->
    is_u16 address ->
    Z.land (high_byte address) (capacity_mask (this m)) = 0 ->
    fst (getMatch (snd (write address value m))) = false /\
    fst (getMatch (snd (store m))) = true /\
    fst (getMatch (snd (recall m))) = true.
Proof.
  intros m address value Hm Ha Hin.
  destruct (sim_write address value m Hm Ha Hin) as [_ [_ [Hmw Hcw]]].
  destruct (sim_store m Hm) as [_ [Hms Hcs]].
  destruct (sim_recall m Hm) as [_ [Hmr Hcr]].
  rewrite !getMatch_eq. cbn [fst].
  destruct (sim_readControlRegister _ Hmw) as [-> _].
  destruct (sim_readControlRegister _ Hms) as [-> _].
  destruct (sim_readControlRegister _ Hmr) as [-> _].
  rewrite Hcw, Hcs, Hcr.
  cbn [Sim.status Sim.poke Sim.with_pointer].
  assert (Hset : forall s,
            (Z.land (to_u8 (Z.lor s 0x80)) 0x80 =? 0) = false).
  { intros s. rewrite Z.land_comm, land_u8_low by (unfold is_u8; lia).
    apply Z.eqb_neq. intros E.
    assert (Hbit : Z.testbit (Z.land 0x80 (Z.lor s 0x80)) 7 = false)
      by (rewrite E; apply Z.bits_0).
    rewrite Z.land_spec, Z.lor_spec in Hbit. simpl in Hbit.
    rewrite orb_true_r in Hbit. discriminate. }
  assert (Hclr : forall s,
            (Z.land (to_u8 (Z.land s 0x7f)) 0x80 =? 0) = true).
  { intros s. rewrite Z.land_comm, land_u8_low by (unfold is_u8; lia).
    apply Z.eqb_eq. rewrite (Z.land_comm s), Z.land_assoc.
    reflexivity. }
  rewrite Hset, !Hclr. repeat split.
Qed.

Lemma match_follows_the_array_witness :
  fst (getMatch (snd (write 0x0010 1 bench))) = false /\
  fst (getMatch (snd (store bench))) = true /\
  fst (getMatch (snd (recall bench))) = true.
Proof.
  apply (match_follows_the_array bench 0x0010 1).
  - exact bench_attached.
  - unfold is_u16. lia.
  - reflexivity.
Defined.

(** ** Blocks on the simulated chip *)

Section Blocks.

Import Sim.

Local Abbreviation pokes data c :=
  (fold_left (fun c b => poke b c) data c).

Lemma cells_pokes data : forall c, cells (pokes data c) = cells c.
Proof.
  induction data as [|b data IH]; intros c; simpl.
  - reflexivity.
  - rewrite IH. reflexivity.
Qed.

(** Cells the pointer does not visit keep their content. *)
Lemma pokes_outside data : forall c q,
  ~ In q (cells_from (cells c) (pointer c) (length data)) ->
  sram (pokes data c) !! q = sram c !! q.
Proof.
  induction data as [|b data IH]; intros c q Hq.
  - reflexivity.
  - cbn [fold_left length cells_from] in *.
    rewrite IH.
    + cbn [poke sram]. apply lookup_insert_ne.
      intros E. apply Hq. left. exact E.
    + cbn [poke cells pointer]. intros Hin. apply Hq. right. exact Hin.
Qed.

(** Reading the cells back in the order they were written gives the
    data, provided no cell was written twice. *)
Lemma pokes_read data : forall c,
  List.NoDup (cells_from (cells c) (pointer c) (length data)) ->
  map (peek (sram (pokes data c)))
      (cells_from (cells c) (pointer c) (length data)) = data.
Proof.
  induction data as [|b data IH]; intros c Hnd.
  - reflexivity.
  - cbn [fold_left length cells_from map] in *.
    apply NoDup_cons_iff in Hnd. destruct Hnd as [Hhead Htail].
    f_equal.
    + unfold peek. rewrite pokes_outside by exact Hhead.
      cbn [poke sram]. rewrite lookup_insert_eq. reflexivity.
    + apply (IH (poke b c)). exact Htail.
Qed.

Lemma data_read_cells k : forall c,
  fst (data_read k c)
  = map (peek (sram c)) (cells_from (cells c) (pointer c) k).
Proof.
  induction k as [|k IH]; intros c.
  - reflexivity.
  - cbn [data_read cells_from map].
    specialize (IH (with_pointer ((pointer c + 1) mod cells c) c)).
    destruct (data_read k _) as [bs c'].
    cbn [fst] in *. rewrite IH. reflexivity.
Qed.

Lemma cells_from_In n : 0 < n -> forall k p q,
  0 <= p < n -> In q (cells_from n p k) ->
  exists i, (i < k)%nat /\ q = (p + Z.of_nat i) mod n.
Proof.
  intros Hn. induction k as [|k IH]; intros p q Hp Hin.
  - destruct Hin.
  - cbn [cells_from] in Hin. destruct Hin as [<- | Hin].
    + exists 0%nat. split; [lia |].
      rewrite Z.add_0_r, Z.mod_small by exact Hp. reflexivity.
    + apply IH in Hin; [| apply Z.mod_pos_bound; exact Hn].
      destruct Hin as [i [Hi ->]].
      exists (S i). split; [lia |].
      rewrite Zplus_mod_idemp_l. f_equal. lia.
Qed.

Lemma cells_from_NoDup n : 0 < n -> forall k p,
  0 <= p < n -> Z.of_nat k <= n -> List.NoDup (cells_from n p k).
Proof.
  intros Hn. induction k as [|k IH]; intros p Hp Hk.
  - constructor.
  - cbn [cells_from]. constructor.
    + intros Hin.
      apply (cells_from_In n Hn) in Hin;
        [| apply Z.mod_pos_bound; exact Hn].
      destruct Hin as [i [Hi E]].
      rewrite Zplus_mod_idemp_l in E.
      pose proof (Z.div_mod (p + 1 + Z.of_nat i) n ltac:(lia)) as Hdm.
      rewrite <- E in Hdm.
      assert (Hq : 1 + Z.of_nat i = n * ((p + 1 + Z.of_nat i) / n)) by lia.
      assert (Hj : 0 < 1 + Z.of_nat i < n) by lia.
      revert Hq Hj. generalize ((p + 1 + Z.of_nat i) / n) (1 + Z.of_nat i).
      intros q j Hq Hj.
      destruct (Z_le_gt_dec q 0); nia.
    + apply IH; [apply Z.mod_pos_bound; exact Hn | lia].
Qed.

End Blocks.

Lemma take_S_insert {A} (l : list A) i x :
  (i < length l)%nat -> take (S i) (<[i:=x]> l) = take i l ++ [x].
Proof.
  intros Hi. rewrite insert_take_drop by exact Hi.
  rewrite take_app. rewrite length_take.
  replace (i `min` length l)%nat with i by lia.
  replace (S i - i)%nat with 1%nat by lia.
  rewrite take_take. replace (S i `min` i)%nat with i by lia.
  reflexivity.
Qed.

Lemma sim_read_array_loop n : forall i values (m : Machine Sim.Wire) bs,
  Sim.rxBuffer (wire m) = bs -> length bs = n -> 0 <= i ->
  (Z.to_nat i + n <= length values)%nat ->
  fst (read_array_loop n i values m)
  = take (Z.to_nat i) values ++ map to_u8 bs
      ++ drop (Z.to_nat i + n) values.
Proof.
  induction n as [|n IH]; intros i values m bs Hrx Hlen Hi Hfit.
  - destruct bs; [| discriminate]. cbn [read_array_loop ret fst map app].
    rewrite Nat.add_0_r, take_drop. reflexivity.
  - destruct bs as [|b bs]; [discriminate |].
    cbn [read_array_loop]. unfold bind at 1.
    unfold Wire_read, from_wire. cbn [tw_read Sim.wire_TwoWire].
    unfold Sim.read. rewrite Hrx.
    rewrite (IH (i + 1) _ _ bs); cbn [wire Sim.rxBuffer];
      try reflexivity; try lia.
    + replace (Z.to_nat (i + 1)) with (S (Z.to_nat i)) by lia.
      rewrite take_S_insert by lia.
      rewrite drop_insert_lt by lia.
      cbn [map]. rewrite <- app_assoc. cbn [app].
      replace (S (Z.to_nat i) + n)%nat with (Z.to_nat i + S n)%nat by lia.
      reflexivity.
    + simpl in Hlen. lia.
    + rewrite length_insert. lia.
Qed.

Lemma length_cells_from n k : forall p, length (cells_from n p k) = k.
Proof.
  induction k as [|k IH]; intros p; cbn [cells_from length].
  - reflexivity.
  - rewrite IH. reflexivity.
Qed.

Lemma map_to_u8_bytes (l : list Z) :
  List.Forall is_u8 l -> map to_u8 l = l.
Proof.
  induction 1 as [|b l Hb Hl IH]; cbn [map].
  - reflexivity.
  - rewrite IH, to_u8_small by exact Hb. reflexivity.
Qed.

(** An accepted block [write] on an attached chip. *)
Lemma sim_write_array address values size (m : Machine Sim.Wire) :
  Sim.attached m -> is_u16 address -> in_bounds (this m) address ->
  let c := Sim.chip (wire m) in
  let m' := snd (write_array address values size m) in
  fst (write_array address values size m) = 0 /\
  this m' = this m /\
  Sim.attached m' /\
  Sim.chip (wire m')
  = fold_left (fun c b => Sim.poke b c)
      (map to_u8 (take (Z.to_nat size) values))
      (Sim.with_pointer (address mod Sim.cells c) c).
Proof.
  intros Hm Ha Hin c m'. subst c m'.
  destruct (attached_addresses m Hm) as [Hd _].
  rewrite (write_array_accepts_eq address values size m Ha Hin). cbv zeta.
  rewrite sim_writes.
  cbn [tw_endTransmission tw_write_buf tw_beginTransmission
       Sim.wire_TwoWire].
  unfold Sim.endTransmission, Sim.write_buf, Sim.beginTransmission.
  cbn [Sim.chip Sim.txAddress Sim.txBuffer Sim.rxBuffer app map].
  rewrite Hd, Z.eqb_refl. cbn [fst snd on this wire Sim.chip].
  cbn [Sim.data_write]. rewrite (address_bytes address Ha).
  split; [reflexivity |]. split; [reflexivity |]. split; [| reflexivity].
  destruct Hm as [Hsel [Hs Hcr]]. unfold Sim.attached.
  cbn [on this wire Sim.chip]. rewrite sim_pins_pokes.
  cbn [Sim.with_pointer Sim.pins]. repeat split; assumption.
Qed.

(** The array an accepted block [read] leaves on an attached chip. *)
Lemma sim_read_array address buffer size (m : Machine Sim.Wire) :
  Sim.attached m -> is_u16 address -> in_bounds (this m) address ->
  0 <= size -> (Z.to_nat size <= length buffer)%nat ->
  let c := Sim.chip (wire m) in
  snd (fst (read_array address buffer size m))
  = map to_u8
      (map (Sim.peek (Sim.sram c))
         (cells_from (Sim.cells c) (address mod Sim.cells c)
                     (Z.to_nat size)))
    ++ drop (Z.to_nat size) buffer.
Proof.
  intros Hm Ha Hin Hsize Hfit c. subst c.
  destruct (attached_addresses m Hm) as [Hd _].
  rewrite (read_array_accepts_eq address buffer size m Ha Hin). cbv zeta.
  cbn [fst snd].
  rewrite (sim_send_data _ _ _ Hd). cbn [snd].
  cbn [tw_requestFrom Sim.wire_TwoWire]. unfold Sim.requestFrom.
  cbn [Sim.chip map Sim.data_write fold_left].
  rewrite (address_bytes address Ha).
  cbn [Sim.with_pointer Sim.pins]. rewrite Hd, Z.eqb_refl.
  pose proof (data_read_cells (Z.to_nat size)
                (Sim.with_pointer
                   (address mod Sim.cells (Sim.chip (wire m)))
                   (Sim.chip (wire m)))) as Hbs.
  fold (Sim.with_pointer (address mod Sim.cells (Sim.chip (wire m)))
                         (Sim.chip (wire m))).
  destruct (Sim.data_read _ _) as [bs c']. cbn [fst] in Hbs.
  cbn [Sim.with_pointer Sim.sram Sim.cells Sim.pointer] in Hbs.
  rewrite (sim_read_array_loop (Z.to_nat size) 0 buffer _ bs).
  - change (Z.to_nat 0) with 0%nat. cbn [take app Nat.add].
    rewrite Hbs. reflexivity.
  - reflexivity.
  - rewrite Hbs, length_map, length_cells_from. reflexivity.
  - lia.
  - change (Z.to_nat 0) with 0%nat. lia.
Qed.

(** X13.  On the simulated chip a block [write] followed by a block
    [read] of the same offset and length fills the first [size]
    positions of the caller's array with the bytes written and leaves
    the rest of it alone.  The block may run past the last cell and
    wrap; it must not be longer than the array of the chip. *)
Theorem block_round_trip :
  forall (m : Machine Sim.Wire) (address : Z) (values buffer : list Z)
         (size : Z),
    Sim.attached m ->
    is_u16 address ->
    Z.land (high_byte address) (capacity_mask (this m)) = 0 ->
    List.Forall is_u8 values ->
    0 <= size ->
    (Z.to_nat size <= length values)%nat ->
    (Z.to_nat size <= length buffer)%nat ->
    0 < Sim.cells (Sim.chip (wire m)) ->
    size <= Sim.cells (Sim.chip (wire m)) ->
    fst (write_array address values size m) = Ok /\
    snd (fst (read_array address buffer size
                (snd (write_array address values size m))))
    = take (Z.to_nat size) values ++ drop (Z.to_nat size) buffer.
Proof.
  intros m address values buffer size Hm Ha Hin Hbytes Hsize Hlv Hlb
         Hcells Hfit.
  destruct (sim_write_array address values size m Hm Ha Hin)
    as [Hs [Hthis [Hm' Hchip]]].
  split; [exact Hs |].
  rewrite sim_read_array; try assumption.
  - cbv zeta. rewrite Hchip. f_equal.
    assert (Htake : List.Forall is_u8 (take (Z.to_nat size) values))
      by (apply Forall_take, Hbytes).
    rewrite (map_to_u8_bytes _ Htake).
    set (c0 := Sim.with_pointer _ _).
    rewrite cells_pokes.
    assert (Hlen : length (take (Z.to_nat size) values) = Z.to_nat size)
      by (rewrite length_take; lia).
    change (Sim.cells (Sim.chip (wire m))) with (Sim.cells c0).
    change (address mod Sim.cells c0) with (Sim.pointer c0).
    set (data := take (Z.to_nat size) values) in *.
    rewrite <- Hlen.
    rewrite pokes_read.
    + apply map_to_u8_bytes, Htake.
    + rewrite Hlen. subst c0. cbn [Sim.with_pointer Sim.cells Sim.pointer].
      apply cells_from_NoDup.
      * exact Hcells.
      * apply Z.mod_pos_bound. exact Hcells.
      * lia.
  - unfold in_bounds. rewrite Hthis. exact Hin.
Qed.

Lemma block_round_trip_witness :
  fst (write_array 0x07ff [1; 2; 3] 3 bench) = Ok /\
  snd (fst (read_array 0x07ff [9; 9; 9; 9] 3
              (snd (write_array 0x07ff [1; 2; 3] 3 bench))))
  = [1; 2; 3; 9].
Proof.
  apply (block_round_trip bench 0x07ff [1; 2; 3] [9; 9; 9; 9] 3).
  - exact bench_attached.
  - unfold is_u16. lia.
  - reflexivity.
  - repeat constructor; unfold is_u8; lia.
  - lia.
  - simpl. lia.
  - simpl. lia.
  - simpl. lia.
  - simpl. lia.
Defined.

(** ** The caller's array *)

Section Buffer.

Context {W : Type} `{TwoWire W}.

Lemma read_array_loop_keeps n : forall i values (m : Machine W),
  0 <= i ->
  let r := fst (read_array_loop n i values m) in
  length r = length values /\
  forall j : nat,
    (j < Z.to_nat i \/ Z.to_nat i + n <= j)%nat -> r !! j = values !! j.
Proof.
  induction n as [|n IH]; intros i values m Hi.
  - cbn [read_array_loop ret fst]. split; reflexivity.
  - cbn [read_array_loop]. unfold bind.
    destruct (Wire_read m) as [b m1].
    destruct (IH (i + 1) (<[Z.to_nat i := to_u8 b]> values) m1
                ltac:(lia)) as [Hlen Hsame].
    cbv beta iota zeta. split.
    + rewrite Hlen. apply length_insert.
    + intros j Hj. rewrite Hsame by lia.
      apply list_lookup_insert_ne. lia.
Qed.

End Buffer.

(** X14.  The block [read] stores only into the first [size] positions
    of the caller's array: the array keeps its length and every
    position from [size] on keeps its value, whether the offset is
    accepted or refused and whatever the transport delivers. *)
Theorem read_array_keeps_the_rest :
  forall (W : Type) (T : TwoWire W) (m : Machine W)
         (address : Z) (values : list Z) (size : Z),
    is_u16 address ->
    0 <= size ->
    (Z.to_nat size <= length values)%nat ->
    let r := snd (fst (read_array address values size m)) in
    length r = length values /\
    forall j : nat, (Z.to_nat size <= j)%nat -> r !! j = values !! j.
Proof.
  intros W T m address values size Ha Hsize Hfit r. subst r.
  destruct (bounds_dec (this m) address) as [Hin | Hoob].
  - rewrite (read_array_accepts_eq address values size m Ha Hin).
    cbv zeta. cbn [fst snd].
    destruct (read_array_loop_keeps (Z.to_nat size) 0 values
                (on m (tw_requestFrom (SRAM_REGISTER (this m)) size
                         (snd (wire_send (SRAM_REGISTER (this m))
                                 [a8 (set_a16 address) 1;
                                  a8 (set_a16 address) 0] (wire m)))))
                ltac:(lia)) as [Hlen Hsame].
    split; [exact Hlen |].
    intros j Hj. apply Hsame. change (Z.to_nat 0) with 0%nat. lia.
  - rewrite (read_array_rejects address values size m Ha Hoob).
    cbn [fst snd]. split; reflexivity.
Qed.

Lemma read_array_keeps_the_rest_witness :
  let r := snd (fst (read_array 0x0010 [9; 8; 7; 6] 2 bench)) in
  length r = 4%nat /\
  forall j : nat, (2 <= j)%nat -> r !! j = [9; 8; 7; 6] !! j.
Proof.
  apply (read_array_keeps_the_rest _ _ bench 0x0010 [9; 8; 7; 6] 2).
  - unfold is_u16. lia.
  - lia.
  - simpl. lia.
Defined.

(** X15.  On the simulated transport a block [write] of one byte is
    the single-byte [write]: same status, same state of the bus and of
    the chip afterwards, whether the offset is accepted or refused. *)
Theorem write_array_of_one :
  forall (m : Machine Sim.Wire) (address value : Z) (rest : list Z),
    is_u16 address ->
    write_array address (value :: rest) 1 m = write address value m.
Proof.
  intros m address value rest Ha.
  destruct (bounds_dec (this m) address) as [Hin | Hoob].
  - rewrite (write_array_accepts_eq address (value :: rest) 1 m Ha Hin).
    rewrite (write_accepts address value m Ha Hin). cbv zeta.
    unfold wire_send. cbn [fold_left].
    cbn [tw_write_buf tw_write Sim.wire_TwoWire].
    unfold Sim.write_buf, Sim.write at 1.
    change (Z.to_nat 1) with 1%nat. cbn [firstn map take].
    reflexivity.
  - rewrite (write_array_rejects address (value :: rest) 1 m Ha Hoob).
    rewrite (write_rejects address value m Ha Hoob). reflexivity.
Qed.

Lemma write_array_of_one_witness :
  write_array 0x0010 [0x2a; 0x2b] 1 bench = write 0x0010 0x2a bench.
Proof.
  apply (write_array_of_one bench 0x0010 0x2a [0x2b]).
  unfold is_u16. lia.
Defined.

(** ** A bus on which the chip does not answer *)

Lemma sim_send_unanswered a payload (w : Sim.Wire) :
  to_u8 a <> Z.lor 0x50 (Sim.pins (Sim.chip w)) ->
  to_u8 a <> Z.lor 0x18 (Sim.pins (Sim.chip w)) ->
  wire_send a payload w
  = (2, {| Sim.chip := Sim.chip w; Sim.txAddress := to_u8 a;
           Sim.txBuffer := []; Sim.rxBuffer := Sim.rxBuffer w |}).
Proof.
  intros Hd Hc. unfold wire_send. rewrite sim_writes.
  cbn [tw_endTransmission tw_beginTransmission Sim.wire_TwoWire].
  unfold Sim.endTransmission, Sim.beginTransmission.
  cbn [Sim.chip Sim.txAddress Sim.txBuffer Sim.rxBuffer app].
  destruct (Z.eqb_spec (to_u8 a) (Z.lor 0x50 (Sim.pins (Sim.chip w))));
    [contradiction |].
  destruct (Z.eqb_spec (to_u8 a) (Z.lor 0x18 (Sim.pins (Sim.chip w))));
    [contradiction |].
  reflexivity.
Qed.

Lemma sim_fetch_unanswered a (w : Sim.Wire) :
  to_u8 a <> Z.lor 0x50 (Sim.pins (Sim.chip w)) ->
  to_u8 a <> Z.lor 0x18 (Sim.pins (Sim.chip w)) ->
  Sim.txAddress w = to_u8 a ->
  fst (wire_fetch a w) = 0xff /\
  Sim.chip (snd (wire_fetch a w)) = Sim.chip w.
Proof.
  intros Hd Hc Htx. unfold wire_fetch.
  cbn [tw_requestFrom tw_read tw_endTransmission Sim.wire_TwoWire].
  unfold Sim.requestFrom.
  destruct (Z.eqb_spec (to_u8 a) (Z.lor 0x50 (Sim.pins (Sim.chip w))));
    [contradiction |].
  destruct (Z.eqb_spec (to_u8 a) (Z.lor 0x18 (Sim.pins (Sim.chip w))));
    [contradiction |].
  unfold Sim.read. cbn [Sim.rxBuffer fst snd].
  unfold Sim.endTransmission.
  cbn [Sim.chip Sim.txAddress Sim.txBuffer Sim.rxBuffer]. rewrite Htx.
  destruct (Z.eqb_spec (to_u8 a) (Z.lor 0x50 (Sim.pins (Sim.chip w))));
    [contradiction |].
  destruct (Z.eqb_spec (to_u8 a) (Z.lor 0x18 (Sim.pins (Sim.chip w))));
    [contradiction |].
  split; reflexivity.
Qed.

(** X16.  When no chip answers the object's data address, an accepted
    [write] returns 2 (address not acknowledged), and an accepted
    [read] returns 0xFF: the -1 with which the transport reports an
    empty receive buffer, cut to a byte.  The chip is not touched. *)
Theorem unanswered_bus :
  forall (m : Machine Sim.Wire) (address value : Z),
    to_u8 (SRAM_REGISTER (this m))
      <> Z.lor 0x50 (Sim.pins (Sim.chip (wire m))) ->
    to_u8 (SRAM_REGISTER (this m))
      <> Z.lor 0x18 (Sim.pins (Sim.chip (wire m))) ->
    is_u16 address ->
    Z.land (high_byte address) (capacity_mask (this m)) = 0 ->
    fst (write address value m) = AddressNack /\
    Sim.chip (wire (snd (write address value m))) = Sim.chip (wire m) /\
    fst (read address m) = 0xff /\
    Sim.chip (wire (snd (read address m))) = Sim.chip (wire m).
Proof.
  intros m address value Hd Hc Ha Hin.
  rewrite (write_accepts address value m Ha Hin).
  rewrite (read_accepts address m Ha Hin). cbv zeta.
  rewrite !(sim_send_unanswered _ _ _ Hd Hc). cbn [fst snd on wire].
  destruct (sim_fetch_unanswered (SRAM_REGISTER (this m))
              {| Sim.chip := Sim.chip (wire m);
                 Sim.txAddress := to_u8 (SRAM_REGISTER (this m));
                 Sim.txBuffer := [];
                 Sim.rxBuffer := Sim.rxBuffer (wire m) |} Hd Hc eq_refl)
    as [Hbyte Hchip].
  repeat split; assumption.
Qed.

Lemma unanswered_bus_witness :
  let m := snd (begin 0 0 16 (boot (Sim.blank 2 2048))) in
  fst (write 0x0010 1 m) = AddressNack /\
  Sim.chip (wire (snd (write 0x0010 1 m))) = Sim.chip (wire m) /\
  fst (read 0x0010 m) = 0xff /\
  Sim.chip (wire (snd (read 0x0010 m))) = Sim.chip (wire m).
Proof.
  apply (unanswered_bus (snd (begin 0 0 16 (boot (Sim.blank 2 2048))))
           0x0010 1).
  - vm_compute. discriminate.
  - vm_compute. discriminate.
  - unfold is_u16. lia.
  - reflexivity.
Defined.

(** ** The capacity mask over the life of the object *)

(** X17.  No method other than [begin] changes the capacity mask: after
    any sequence of calls an offset is refused exactly if it was
    refused before. *)
Theorem bounds_are_stable :
  forall (W : Type) (T : TwoWire W) (m : Machine W)
         (cs : list Invocation) (address : Z),
    capacity_mask (this (invoke_all cs m)) = capacity_mask (this m) /\
    (Z.land (high_byte address) (capacity_mask (this (invoke_all cs m))) <> 0
     <-> Z.land (high_byte address) (capacity_mask (this m)) <> 0).
Proof.
  intros W T m cs address. rewrite this_invoke_all.
  split; [reflexivity | split; auto].
Qed.

(** ** The bounds test of the block operations *)



